(** * eslint-plugin-flowtype-errors: [src/collect.js]

    A shallow embedding of the module that runs Flow on a snippet and turns
    its JSON report into ESLint-sized records, with the properties the
    specification states about it.

    Conventions of the embedding.
    - JavaScript strings are [string]s (sequences of bytes).  The regular
      expression of [formatMessage], [includes] and the needle of
      [determineRuleType] only look at ASCII characters, so reading a string
      as its UTF-8 bytes changes none of their answers; [toLowerCase] is the
      ASCII mapping.
    - Line, column and offset numbers are integers ([Z]).
    - An optional field of the declared Flow types is an [option]: [None]
      is the absent field ([undefined]) and, for a field of a maybe type
      such as [loc] and [source], also [null].
    - A [TypeError] raised by a property read on [null]/[undefined] is the
      [Throw] outcome of [completion].
    - Node's [path.resolve], [path.basename], the [slash] package,
      [JSON.parse], [child_process.spawnSync] and the environment are outside
      the module; they are the fields of the class [Platform]. *)

From Stdlib Require Import String Ascii List ZArith Bool Lia DecimalString.
Import ListNotations.
Open Scope string_scope.
Open Scope Z_scope.

(** ** JavaScript string primitives used by the module *)

Module JsString.

(** [!!s] for a string: the empty string is the only falsy one. *)
Definition truthy (s : string) : bool :=
  match s with EmptyString => false | String _ _ => true end.

(** [s.startsWith(p)] *)
Fixpoint startsWith (p s : string) : bool :=
  match p, s with
  | EmptyString, _ => true
  | String a p', String b s' => Ascii.eqb a b && startsWith p' s'
  | String _ _, EmptyString => false
  end.

(** [s.includes(needle)] *)
Fixpoint includes (needle s : string) : bool :=
  startsWith needle s
  || match s with
     | EmptyString => false
     | String _ s' => includes needle s'
     end.

(** [s.slice(n)] for [0 <= n] *)
Fixpoint drop (n : nat) (s : string) : string :=
  match n, s with
  | O, _ => s
  | S _, EmptyString => EmptyString
  | S n', String _ s' => drop n' s'
  end.

(** [s.replace(pat, '')] with a string pattern: the first occurrence of
    [pat] is removed, the rest is kept. *)
Fixpoint removeFirst (pat s : string) : string :=
  if startsWith pat s then drop (String.length pat) s
  else match s with
       | EmptyString => EmptyString
       | String c s' => String c (removeFirst pat s')
       end.

Definition isUpper (c : ascii) : bool :=
  (65 <=? nat_of_ascii c)%nat && (nat_of_ascii c <=? 90)%nat.

Definition lowerChar (c : ascii) : ascii :=
  if isUpper c then ascii_of_nat (nat_of_ascii c + 32) else c.

(** [s.toLowerCase()] *)
Fixpoint toLowerCase (s : string) : string :=
  match s with
  | EmptyString => EmptyString
  | String c s' => String (lowerChar c) (toLowerCase s')
  end.

(** [\d] *)
Definition isDigit (c : ascii) : bool :=
  (48 <=? nat_of_ascii c)%nat && (nat_of_ascii c <=? 57)%nat.

Fixpoint allDigits (s : string) : bool :=
  match s with
  | EmptyString => true
  | String c s' => isDigit c && allDigits s'
  end.

(** The text of an integer inside a template literal. *)
Definition ofNumber (n : Z) : string :=
  NilZero.string_of_int (Z.to_int n).

(** The text of an optional value inside a template literal. *)
Definition orUndefined (o : option string) : string :=
  match o with Some s => s | None => "undefined" end.

End JsString.
Import JsString.

(** ** Outcomes of code that may raise *)

Inductive completion (A : Type) : Type :=
| Return (a : A)
| Throw.
Arguments Return {A} a.
Arguments Throw {A}.

Definition bind {A B} (c : completion A) (k : A -> completion B) : completion B :=
  match c with
  | Return a => k a
  | Throw => Throw
  end.

Declare Scope js_scope.
Delimit Scope js_scope with js.
Notation "x <- c ;; k" := (bind c (fun x => k))
  (at level 61, c at next level, right associativity) : js_scope.
Open Scope js_scope.

(** [xs.map(f)] where [f] may raise: the first exception ends the loop. *)
Fixpoint mapM {A B} (f : A -> completion B) (xs : list A) : completion (list B) :=
  match xs with
  | [] => Return []
  | x :: xs' => y <- f x ;; ys <- mapM f xs' ;; Return (y :: ys)
  end.

(** [xs.filter(f)] where [f] may raise. *)
Fixpoint filterM {A} (f : A -> completion bool) (xs : list A) : completion (list A) :=
  match xs with
  | [] => Return []
  | x :: xs' =>
      b <- f x ;; ys <- filterM f xs' ;; Return (if b then x :: ys else ys)
  end.

(** ** Data model (the Flow types of the module) *)

Module FlowSeverity.
Definition Error : string := "error".
Definition Warning : string := "warning".
End FlowSeverity.

(** [Pos]; the positions of a normalized location also carry [offset]. *)
Record Pos := mkPos {
  pos_line : Z;
  pos_column : Z;
  pos_offset : option Z
}.

Record Loc := mkLoc {
  loc_start : Pos;
  loc_end : Pos
}.

Record FlowPos := mkFlowPos {
  line : Z;
  column : Z;
  offset : Z
}.

Inductive FlowLocType := SourceFile | LibFile.

Record FlowLoc := mkFlowLoc {
  source : option string;
  start : FlowPos;
  end_ : FlowPos;
  loc_type : FlowLocType
}.

Inductive FlowMessageType := Blame | Comment.

Record FlowMessage := mkFlowMessage {
  path : string;
  descr : string;
  msg_type : FlowMessageType;
  msg_line : Z;
  endline : Z;
  loc : option FlowLoc
}.

(** One entry of [extra]: [{ message: Array<FlowMessage> }]. *)
Record FlowExtra := mkFlowExtra {
  extra_message : list FlowMessage
}.

Record FlowError := mkFlowError {
  message : list FlowMessage;
  level : option string;
  operation : option FlowMessage;
  extra : option (list FlowExtra)
}.

(** *** What [JSON.parse] hands back

    [collect] and [coverage] read four properties off the parsed value and
    nothing else.  A parsed value is therefore [null], on which every
    property read raises, or any other value, seen through those reads. *)

(** [json.exit] when it is truthy, with the two properties the template
    literal prints ([None]: the property is absent). *)
Record FlowExit := mkFlowExit {
  exit_msg : option string;
  exit_code : option Z
}.

(** [json.expressions] when property reads on it succeed. *)
Record FlowExpressions := mkFlowExpressions {
  covered_count : option Z;
  uncovered_count : option Z
}.

Record Envelope := mkEnvelope {
  errors : option (list FlowError);        (* [Some] iff [Array.isArray(json.errors)] *)
  flowVersion : option string;
  exit : option FlowExit;                  (* [Some] iff [json.exit] is truthy *)
  expressions : option FlowExpressions     (* [None]: undefined or null *)
}.

Inductive Json :=
| JsonNull
| JsonValue (json : Envelope).

(** *** Results *)

(** The objects [collect] puts in its array.  [fatalError] sets the first
    three fields only; the others are then [undefined]. *)
Record CollectOutputElement := mkElement {
  out_level : string;
  out_loc : Loc;
  out_message : string;
  out_type : option string;
  out_path : option string;
  out_start : option Z;
  out_end : option Z;
  out_json : option Envelope     (* the spread of [json] under the debug flag *)
}.

Inductive CollectResult :=
| CollectSentinel (b : bool)
| CollectOutput (output : list CollectOutputElement).

Record CoverageOutput := mkCoverage {
  coveredCount : option Z;
  uncoveredCount : option Z
}.

Inductive CoverageResult :=
| CoverageSentinel (b : bool)
| CoverageCounts (c : CoverageOutput).

Record ProgramOffset := mkOffset {
  off_line : Z;
  off_column : Z
}.

(** *** The process around the module *)

(** One call of [childProcess.spawnSync]. *)
Record SpawnCall := mkSpawn {
  spawn_bin : option string;
  spawn_args : list string;
  spawn_input : option string
}.

(** The module-level flag, the listeners given to [process.on('exit', _)]
    (each closure is known by the [root] it captured) and the calls of
    [spawnSync] made so far, oldest first. *)
Record ProcessState := mkState {
  didExecute : bool;
  exitListeners : list string;
  spawned : list SpawnCall
}.

Definition initialState : ProcessState :=
  {| didExecute := false; exitListeners := []; spawned := [] |}.

(** [string | boolean], the result type of [spawnFlow]. *)
Inductive SpawnResult :=
| SpawnSentinel (b : bool)
| SpawnStdout (stdout : string).

Class Platform := {
  (* [pathModule.resolve(a, b)] *)
  resolve : string -> string -> string;
  (* [pathModule.basename(p)] *)
  basename : string -> string;
  (* the [slash] package *)
  slash : string -> string;
  (* [JSON.parse]; [None] is a [SyntaxError] *)
  JSON_parse : string -> option Json;
  (* [child.stdout] of a [spawnSync] call, given the calls made before it;
     [None] is a null stdout *)
  spawnSync : list SpawnCall -> SpawnCall -> option string;
  (* [process.env.FLOW_BIN], [process.env.DEBUG_FLOWTYPE_ERRRORS] *)
  env_FLOW_BIN : option string;
  env_DEBUG_FLOWTYPE_ERRRORS : option string;
  (* [require('flow-bin')], loaded when FLOW_BIN is not set *)
  flowBin : option string
}.

(** ** The functions of [collect.js] *)

Section Collect.
Context {platform : Platform}.

(** [(operation && operation.loc) || message[0].loc]; reading [loc] off a
    missing [message[0]] raises. *)
Definition mainLocOfError (error : FlowError) : completion (option FlowLoc) :=
  match match operation error with Some op => loc op | None => None end with
  | Some l => Return (Some l)
  | None =>
      match message error with
      | [] => Throw
      | m :: _ => Return (loc m)
      end
  end.

Definition degenerateLoc : Loc :=
  {| loc_start := {| pos_line := 1; pos_column := 1; pos_offset := None |};
     loc_end := {| pos_line := 1; pos_column := 1; pos_offset := None |} |}.

Definition fatalError (msg : string) : list CollectOutputElement :=
  [ {| out_level := FlowSeverity.Error;
       out_loc := degenerateLoc;
       out_message := msg;
       out_type := None; out_path := None; out_start := None; out_end := None;
       out_json := None |} ].

Definition isLibFile (l : option FlowLoc) : bool :=
  match l with
  | Some {| loc_type := LibFile |} => true
  | _ => false
  end.

Definition formatSeePath (msg : FlowMessage) (root : string)
    (version : option string) : string :=
  if isLibFile (loc msg)
  then "https://github.com/facebook/flow/blob/v" ++ orUndefined version
       ++ "/lib/" ++ basename (path msg) ++ "#L" ++ ofNumber (msg_line msg)
  else "." ++ slash (removeFirst root (path msg)) ++ ":" ++ ofNumber (msg_line msg).

(** [extras.find(extra => extra.descr === extraDescr)].  An element of
    [extras] is [None] when it is [undefined]; the predicate raises on it. *)
Fixpoint findExtra (extras : list (option FlowMessage)) (extraDescr : string)
  : completion (option FlowMessage) :=
  match extras with
  | [] => Return None
  | None :: _ => Throw
  | Some e :: rest =>
      if String.eqb (descr e) extraDescr then Return (Some e)
      else findExtra rest extraDescr
  end.

(** The replacer function given to [String.prototype.replace]. *)
Definition replacer (msg : FlowMessage) (extras : list (option FlowMessage))
    (root : string) (version : option string) (lineOffset : Z)
    (matchedStr extraDescr : string) : completion string :=
  extraMessage <- findExtra extras extraDescr ;;
  match extraMessage with
  | None => Return matchedStr
  | Some e =>
      if negb (String.eqb (path e) (path msg))
      then Return (" (see " ++ formatSeePath e root version ++ ")")
      else if Z.eqb (msg_line e) (msg_line msg)
           then Return ""
           else Return (" (see line " ++ ofNumber (lineOffset + msg_line e) ++ ")")
  end.

(** The longest run of digits at the head of [s], and what follows it. *)
Fixpoint spanDigits (s : string) : string * string :=
  match s with
  | EmptyString => (EmptyString, EmptyString)
  | String c s' =>
      if isDigit c
      then let (ds, rest) := spanDigits s' in (String c ds, rest)
      else (EmptyString, s)
  end.

(** A match of [/ (\[\d+\])/] at the head of [s]: the capture group.  [\d+]
    is greedy and a digit is not a bracket, so the match takes the whole run
    of digits and needs a closing bracket right after it. *)
Definition matchRef (s : string) : option string :=
  match s with
  | String c0 (String c1 s1) =>
      if Ascii.eqb c0 " " && Ascii.eqb c1 "["
      then match spanDigits s1 with
           | (String d ds, String c2 _) =>
               if Ascii.eqb c2 "]" then Some ("[" ++ String d ds ++ "]") else None
           | _ => None
           end
      else None
  | _ => None
  end.

(** [s.replace(/ (\[\d+\])/g, f)]: matches are looked for from left to
    right; a match is replaced by what [f] returns and the search goes on
    behind it; any other character is copied.  [skip] counts the characters
    of the current match still to be passed over. *)
Fixpoint replaceRefs (f : string -> string -> completion string)
    (skip : nat) (s : string) : completion string :=
  match s with
  | EmptyString => Return EmptyString
  | String c s' =>
      match skip with
      | S k => replaceRefs f k s'
      | O =>
          match matchRef s with
          | Some group =>
              r <- f (" " ++ group) group ;;
              t <- replaceRefs f (String.length group) s' ;;
              Return (r ++ t)
          | None =>
              t <- replaceRefs f O s' ;;
              Return (String c t)
          end
      end
  end.

(** [formatMessage] on a description text; the replacer reads [path] and
    [line] off [msg]. *)
Definition formatDescr (msg : FlowMessage) (extras : list (option FlowMessage))
    (root : string) (version : option string) (lineOffset : Z)
    (text : string) : completion string :=
  replaceRefs (replacer msg extras root version lineOffset) O text.

Definition formatMessage (msg : FlowMessage) (extras : list (option FlowMessage))
    (root : string) (version : option string) (lineOffset : Z)
  : completion string :=
  formatDescr msg extras root version lineOffset (descr msg).

(** [process.env.FLOW_BIN || flowBin] *)
Definition getFlowBin : option string :=
  match env_FLOW_BIN with
  | Some s => if truthy s then Some s else flowBin
  | None => flowBin
  end.

Definition onExit (root : string) (st : ProcessState) : ProcessState :=
  if negb (didExecute st)
  then {| didExecute := true;
          exitListeners := exitListeners st ++ [root];
          spawned := spawned st |}
  else st.

(** The listener registered by [onExit]:
    [childProcess.spawnSync(getFlowBin(), ['stop', root])]. *)
Definition stopCall (root : string) : SpawnCall :=
  {| spawn_bin := getFlowBin; spawn_args := ["stop"; root]; spawn_input := None |}.

(** The 'exit' event: every listener runs, in registration order. *)
Definition processExit (st : ProcessState) : ProcessState :=
  {| didExecute := didExecute st;
     exitListeners := exitListeners st;
     spawned := spawned st ++ map stopCall (exitListeners st) |}.

(** The arguments and options of the [spawnSync] call in [spawnFlow]. *)
Definition flowCall (mode input root filepath : string) : SpawnCall :=
  {| spawn_bin := getFlowBin;
     spawn_args := [mode; "--json"; "--root=" ++ root; filepath];
     spawn_input := Some input |}.

Definition recordSpawn (call : SpawnCall) (st : ProcessState) : ProcessState :=
  {| didExecute := didExecute st;
     exitListeners := exitListeners st;
     spawned := spawned st ++ [call] |}.

Definition spawnFlow (mode input root : string) (stopOnExit : bool)
    (filepath : string) (st : ProcessState) : SpawnResult * ProcessState :=
  if negb (truthy input) then (SpawnSentinel true, st)
  else
    let call := flowCall mode input root filepath in
    let stdout := spawnSync (spawned st) call in
    let st1 := recordSpawn call st in
    match stdout with
    | None => (SpawnSentinel false, st1)
    | Some out =>
        if negb (truthy out) then (SpawnSentinel false, st1)
        else (SpawnStdout out, if stopOnExit then onExit root st1 else st1)
    end.

Definition determineRuleType (description : string) : string :=
  if includes "missing type annotation" (toLowerCase description)
  then "missing-annotation"
  else "default".

(** The callback of [json.errors.filter]. *)
Definition keepError (root fullFilepath : string) (error : FlowError)
  : completion bool :=
  mainLoc <- mainLocOfError error ;;
  match match mainLoc with Some l => source l | None => None end with
  | Some mainFile =>
      if truthy mainFile
      then match message error with
           | [] => Throw
           | m :: _ =>
               Return (truthy (descr m)
                       && negb (includes "inconsistent use of" (descr m))
                       && String.eqb (resolve root mainFile) fullFilepath)
           end
      else Return false
  | None => Return false
  end.

Definition defaultPos : FlowPos := {| line := 1; column := 1; offset := 0 |}.

(** [start] and [end] of [messageObject.loc || { start: defaultPos, end: defaultPos }] *)
Definition locOrDefault (l : option FlowLoc) : FlowPos * FlowPos :=
  match l with
  | Some l => (start l, end_ l)
  | None => (defaultPos, defaultPos)
  end.

Definition shiftPos (programOffset : ProgramOffset) (p : FlowPos) : Pos :=
  {| pos_line := line p + off_line programOffset;
     pos_column := if Z.eqb (line p) 0
                   then column p + off_column programOffset
                   else column p;
     pos_offset := Some (offset p) |}.

Definition debugFlag : bool :=
  match env_DEBUG_FLOWTYPE_ERRRORS with
  | Some v => String.eqb v "true"
  | None => false
  end.

(** [level || FlowSeverity.Error] *)
Definition levelOrError (l : option string) : string :=
  match l with
  | Some s => if truthy s then s else FlowSeverity.Error
  | None => FlowSeverity.Error
  end.

(** The callback of [.map] in [collect]. *)
Definition normalizeError (json : Envelope) (root : string)
    (programOffset : ProgramOffset) (error : FlowError)
  : completion CollectOutputElement :=
  match message error with
  | [] => Throw
  | messageObject :: _ =>
      msg <- match extra error with
             | Some (e :: es) =>
                 let extras := map (fun extraObj => hd_error (extra_message extraObj))
                                   (e :: es) in
                 formatMessage messageObject extras root (flowVersion json)
                               (off_line programOffset)
             | _ => Return (descr messageObject)
             end ;;
      let (locStart, locEnd) := locOrDefault (loc messageObject) in
      let newLoc := {| loc_start := shiftPos programOffset locStart;
                       loc_end := shiftPos programOffset locEnd |} in
      Return {| out_json := if debugFlag then Some json else None;
                out_type := Some (determineRuleType msg);
                out_level := levelOrError (level error);
                out_message := msg;
                out_path := Some (path messageObject);
                out_start := Some (pos_line (loc_start newLoc));
                out_end := Some (pos_line (loc_end newLoc));
                out_loc := newLoc |}
  end.

(** [collect] from [JSON.parse(stdout)] on. *)
Definition collectJson (parsed : option Json) (root filepath : string)
    (programOffset : ProgramOffset) : completion CollectResult :=
  match parsed with
  | None => Return (CollectOutput (fatalError "Flow returned invalid json"))
  | Some JsonNull => Throw
  | Some (JsonValue json) =>
      match errors json with
      | None =>
          match exit json with
          | Some e =>
              Return (CollectOutput (fatalError
                ("Flow returned an error: " ++ orUndefined (exit_msg e)
                 ++ " (code: " ++ orUndefined (option_map ofNumber (exit_code e))
                 ++ ")")))
          | None => Return (CollectOutput (fatalError "Flow returned invalid json"))
          end
      | Some errs =>
          let fullFilepath := resolve root filepath in
          kept <- filterM (keepError root fullFilepath) errs ;;
          output <- mapM (normalizeError json root programOffset) kept ;;
          Return (CollectOutput output)
      end
  end.

Definition collect (stdin root : string) (stopOnExit : bool) (filepath : string)
    (programOffset : ProgramOffset) (st : ProcessState)
  : completion CollectResult * ProcessState :=
  match spawnFlow "check-contents" stdin root stopOnExit filepath st with
  | (SpawnSentinel b, st') => (Return (CollectSentinel b), st')
  | (SpawnStdout stdout, st') =>
      (collectJson (JSON_parse stdout) root filepath programOffset, st')
  end.

(** [coverage] from [JSON.parse(stdout)] on: the [try] block covers the
    parse and the read of [expressions]; the reads of the two counters are
    behind it. *)
Definition coverageJson (parsed : option Json) : completion CoverageResult :=
  match parsed with
  | None | Some JsonNull =>
      Return (CoverageCounts {| coveredCount := Some 0; uncoveredCount := Some 0 |})
  | Some (JsonValue json) =>
      match expressions json with
      | None => Throw
      | Some e =>
          Return (CoverageCounts {| coveredCount := covered_count e;
                                    uncoveredCount := uncovered_count e |})
      end
  end.

Definition coverage (stdin root : string) (stopOnExit : bool) (filepath : string)
    (st : ProcessState) : completion CoverageResult * ProcessState :=
  match spawnFlow "coverage" stdin root stopOnExit filepath st with
  | (SpawnSentinel b, st') => (Return (CoverageSentinel b), st')
  | (SpawnStdout stdout, st') => (coverageJson (JSON_parse stdout), st')
  end.

End Collect.

(** ** A process making several calls *)

Section Process.
Context {platform : Platform}.

Inductive Invocation :=
| CallCollect (stdin root : string) (stopOnExit : bool) (filepath : string)
    (programOffset : ProgramOffset)
| CallCoverage (stdin root : string) (stopOnExit : bool) (filepath : string).

Definition inv_mode (i : Invocation) : string :=
  match i with
  | CallCollect _ _ _ _ _ => "check-contents"
  | CallCoverage _ _ _ _ => "coverage"
  end.

Definition inv_stdin (i : Invocation) : string :=
  match i with
  | CallCollect stdin _ _ _ _ | CallCoverage stdin _ _ _ => stdin
  end.

Definition inv_root (i : Invocation) : string :=
  match i with
  | CallCollect _ root _ _ _ | CallCoverage _ root _ _ => root
  end.

Definition inv_stopOnExit (i : Invocation) : bool :=
  match i with
  | CallCollect _ _ stopOnExit _ _ | CallCoverage _ _ stopOnExit _ => stopOnExit
  end.

Definition inv_filepath (i : Invocation) : string :=
  match i with
  | CallCollect _ _ _ filepath _ | CallCoverage _ _ _ filepath => filepath
  end.

(** The state a call leaves behind, whether it returns or raises. *)
Definition invoke (st : ProcessState) (i : Invocation) : ProcessState :=
  match i with
  | CallCollect stdin root stopOnExit filepath programOffset =>
      snd (collect stdin root stopOnExit filepath programOffset st)
  | CallCoverage stdin root stopOnExit filepath =>
      snd (coverage stdin root stopOnExit filepath st)
  end.

Definition runAll (calls : list Invocation) (st : ProcessState) : ProcessState :=
  fold_left invoke calls st.

(** The checker's stdout for call [i] made in state [st]. *)
Definition stdoutOf (st : ProcessState) (i : Invocation) : option string :=
  spawnSync (spawned st)
    (flowCall (inv_mode i) (inv_stdin i) (inv_root i) (inv_filepath i)).

(** Call [i], made in state [st], gets as far as [onExit]: it asked for the
    stop on exit, had text to check and the checker printed something. *)
Definition reachesOnExit (st : ProcessState) (i : Invocation) : bool :=
  inv_stopOnExit i && truthy (inv_stdin i)
  && match stdoutOf st i with
     | Some out => truthy out
     | None => false
     end.

(** The root of the first of [calls], made one after the other from [st],
    that gets as far as [onExit]. *)
Fixpoint firstReaching (calls : list Invocation) (st : ProcessState)
  : option string :=
  match calls with
  | [] => None
  | i :: rest =>
      if reachesOnExit st i then Some (inv_root i)
      else firstReaching rest (invoke st i)
  end.

End Process.

(** ** The wording of the specification, for comparison with the code *)

Section Wording.
Context {platform : Platform}.

(** "The operation's location if present, else the first message's location." *)
Definition primaryLocation (error : FlowError) : option FlowLoc :=
  match match operation error with Some op => loc op | None => None end with
  | Some l => Some l
  | None => match message error with m :: _ => loc m | [] => None end
  end.

(** The four conditions of the filter as the specification words them: the
    primary location has a non-null source, the first description is
    non-empty and free of "inconsistent use of", and the source and the target
    file resolve to the same path. *)
Definition KeptAsWorded (root filepath : string) (error : FlowError) : Prop :=
  exists l mainFile m rest,
    primaryLocation error = Some l /\ source l = Some mainFile
    /\ message error = m :: rest
    /\ descr m <> ""
    /\ includes "inconsistent use of" (descr m) = false
    /\ resolve root mainFile = resolve root filepath.

(** The same with a source that is also non-empty. *)
Definition Kept (root filepath : string) (error : FlowError) : Prop :=
  exists l mainFile m rest,
    primaryLocation error = Some l /\ source l = Some mainFile
    /\ mainFile <> ""
    /\ message error = m :: rest
    /\ descr m <> ""
    /\ includes "inconsistent use of" (descr m) = false
    /\ resolve root mainFile = resolve root filepath.

(** The data model of the specification: a diagnostic has at least one
    message, and so has each of its extras. *)
Definition WellFormed (error : FlowError) : Prop :=
  message error <> []
  /\ forall es, extra error = Some es -> Forall (fun e => extra_message e <> []) es.

(** A reference token, "[digits]". *)
Definition IsRef (tok : string) : Prop :=
  exists ds, ds <> "" /\ allDigits ds = true /\ tok = "[" ++ ds ++ "]".

(** No " [digits]" anywhere in [s]. *)
Definition RefFree (s : string) : Prop :=
  forall pre tok post, IsRef tok -> s <> pre ++ " " ++ tok ++ post.

(** The first extra whose description is the token. *)
Definition matchingExtra (extras : list FlowMessage) (tok : string)
  : option FlowMessage :=
  find (fun e => String.eqb (descr e) tok) extras.

(** The text that takes the place of " [digits]", case by case. *)
Definition replacement (msg : FlowMessage) (extras : list FlowMessage)
    (root : string) (version : option string) (lineOffset : Z) (tok : string)
  : string :=
  match matchingExtra extras tok with
  | None => " " ++ tok
  | Some e =>
      if String.eqb (path e) (path msg)
      then if Z.eqb (msg_line e) (msg_line msg)
           then ""
           else " (see line " ++ ofNumber (lineOffset + msg_line e) ++ ")"
      else " (see " ++ formatSeePath e root version ++ ")"
  end.

Definition withDescr (msg : FlowMessage) (text : string) : FlowMessage :=
  {| path := path msg; descr := text; msg_type := msg_type msg;
     msg_line := msg_line msg; endline := endline msg; loc := loc msg |}.

(** The location facts of the specification for one output record, given the
    first message's raw location. *)
Definition Shifted (programOffset : ProgramOffset) (l : FlowLoc)
    (o : CollectOutputElement) : Prop :=
  out_start o = Some (line (start l) + off_line programOffset)
  /\ out_end o = Some (line (end_ l) + off_line programOffset)
  /\ pos_line (loc_start (out_loc o)) = line (start l) + off_line programOffset
  /\ pos_line (loc_end (out_loc o)) = line (end_ l) + off_line programOffset
  /\ (line (start l) = 0 ->
      pos_column (loc_start (out_loc o)) = column (start l) + off_column programOffset)
  /\ (line (start l) <> 0 ->
      pos_column (loc_start (out_loc o)) = column (start l))
  /\ (line (end_ l) = 0 ->
      pos_column (loc_end (out_loc o)) = column (end_ l) + off_column programOffset)
  /\ (line (end_ l) <> 0 ->
      pos_column (loc_end (out_loc o)) = column (end_ l))
  /\ pos_offset (loc_start (out_loc o)) = Some (offset (start l))
  /\ pos_offset (loc_end (out_loc o)) = Some (offset (end_ l)).


(** The location of a record made from a message without location. *)
Definition defaultLoc (programOffset : ProgramOffset) : Loc :=
  {| loc_start := {| pos_line := 1 + off_line programOffset;
                     pos_column := 1;
                     pos_offset := Some 0 |};
     loc_end := {| pos_line := 1 + off_line programOffset;
                   pos_column := 1;
                   pos_offset := Some 0 |} |}.

Definition withOperation (error : FlowError) (op : option FlowMessage)
  : FlowError :=
  {| message := message error; level := level error;
     operation := op; extra := extra error |}.

(** "No standard-output text is captured": a null stdout or an empty one. *)
Definition NoStdout (stdout : option string) : Prop :=
  stdout = None \/ stdout = Some "".

(** The synthetic fatal diagnostic of the specification: severity Error, the
    given message, the degenerate location, and nothing else. *)
Definition fatalRecord (msg : string) : CollectOutputElement :=
  {| out_level := "error";
     out_loc := {| loc_start := {| pos_line := 1; pos_column := 1; pos_offset := None |};
                   loc_end := {| pos_line := 1; pos_column := 1; pos_offset := None |} |};
     out_message := msg;
     out_type := None; out_path := None; out_start := None; out_end := None;
     out_json := None |}.

End Wording.

(** ** A concrete platform and concrete reports, to run the functions on *)

Module Sample.

(** [path.resolve(root, p)] for an absolute POSIX [root] and a [p] without
    dot segments: an absolute [p] wins, an empty one adds nothing. *)
Definition resolve (root p : string) : string :=
  match p with
  | EmptyString => root
  | String "/" _ => p
  | _ => root ++ "/" ++ p
  end.

(** [path.basename(p)]: what follows the last slash. *)
Fixpoint basename (p : string) : string :=
  match p with
  | EmptyString => EmptyString
  | String c p' =>
      if includes "/" p' then basename p'
      else if Ascii.eqb c "/" then p' else p
  end.

(** [slash]: backslashes become slashes. *)
Fixpoint slash (p : string) : string :=
  match p with
  | EmptyString => EmptyString
  | String c p' => String (if Ascii.eqb c "\" then "/"%char else c) (slash p')
  end.

Definition here : FlowLoc :=
  {| source := Some "src/a.js";
     start := {| line := 1; column := 5; offset := 4 |};
     end_ := {| line := 1; column := 6; offset := 5 |};
     loc_type := SourceFile |}.

Definition firstLine : FlowLoc :=
  {| source := Some "src/a.js";
     start := {| line := 0; column := 2; offset := 2 |};
     end_ := {| line := 3; column := 7; offset := 40 |};
     loc_type := SourceFile |}.

Definition elsewhere : FlowLoc :=
  {| source := Some "src/b.js";
     start := {| line := 9; column := 1; offset := 90 |};
     end_ := {| line := 9; column := 4; offset := 93 |};
     loc_type := SourceFile |}.

Definition unnamed : FlowLoc :=
  {| source := Some "";
     start := {| line := 2; column := 1; offset := 10 |};
     end_ := {| line := 2; column := 3; offset := 12 |};
     loc_type := SourceFile |}.

Definition blame (text : string) (l : option FlowLoc) : FlowMessage :=
  {| path := "/repo/src/a.js"; descr := text; msg_type := Blame;
     msg_line := 1; endline := 1; loc := l |}.

Definition note (file text : string) (n : Z) : FlowMessage :=
  {| path := file; descr := text; msg_type := Comment;
     msg_line := n; endline := n; loc := None |}.

Definition plain (m : FlowMessage) : FlowError :=
  {| message := [m]; level := None; operation := None; extra := None |}.

(** "Missing type annotation for x" on line 1, no extras. *)
Definition missingAnnotation : FlowError :=
  plain (blame "Missing type annotation for x" (Some here)).

Definition inOtherFile : FlowError :=
  plain (blame "Cannot assign" (Some elsewhere)).

Definition onFirstLine : FlowError :=
  {| message := [blame "string [1] is incompatible with number [2] and [3] here [4]"
                       (Some firstLine)];
     level := Some "warning";
     operation := None;
     extra := Some [ {| extra_message := [note "/repo/src/a.js" "[1]" 1] |};
                     {| extra_message := [note "/repo/src/a.js" "[2]" 7] |};
                     {| extra_message := [note "/repo/lib\x.js" "[4]" 3] |} ] |}.

(** The operation has the location, the first message has none. *)
Definition operationOnly (text : string) : FlowError :=
  {| message := [blame text None];
     level := None;
     operation := Some (blame "call of f" (Some here));
     extra := None |}.

Definition emptySource : FlowError :=
  plain (blame "Cannot call" (Some unnamed)).

Definition report (errs : list FlowError) : Envelope :=
  {| errors := Some errs; flowVersion := Some "0.98.0";
     exit := None; expressions := None |}.

Definition noFields : Envelope :=
  {| errors := None; flowVersion := None; exit := None; expressions := None |}.

Definition exited : Envelope :=
  {| errors := None; flowVersion := Some "0.98.0";
     exit := Some {| exit_msg := Some "Out of retries"; exit_code := Some 7 |};
     expressions := None |}.

Definition covered : Envelope :=
  {| errors := None; flowVersion := None; exit := None;
     expressions := Some {| covered_count := Some 12; uncovered_count := Some 3 |} |}.

(** A parser that knows a handful of texts. *)
Definition JSON_parse (text : string) : option Json :=
  if String.eqb text "null" then Some JsonNull
  else if String.eqb text "{}" then Some (JsonValue noFields)
  else if String.eqb text "7" then Some (JsonValue noFields)
  else if String.eqb text "{exit}" then Some (JsonValue exited)
  else if String.eqb text "{expressions}" then Some (JsonValue covered)
  else if String.eqb text "{errors:[]}" then Some (JsonValue (report []))
  else if String.eqb text "{errors:[missing]}"
       then Some (JsonValue (report [missingAnnotation]))
  else if String.eqb text "{errors:[other,first,missing]}"
       then Some (JsonValue (report [inOtherFile; onFirstLine; missingAnnotation]))
  else None.

(** A checker that prints its input back, prints nothing for "silent", and has no
    stdout at all for "crash" and for calls without input. *)
Definition spawnSync (before : list SpawnCall) (call : SpawnCall) : option string :=
  match spawn_input call with
  | None => None
  | Some text =>
      if String.eqb text "crash" then None
      else if String.eqb text "silent" then Some ""
      else Some text
  end.

Definition platform : Platform :=
  Build_Platform resolve basename slash JSON_parse spawnSync
    None None (Some "/repo/node_modules/flow-bin/flow").

Definition offset5 : ProgramOffset := {| off_line := 5; off_column := 0 |}.
Definition offset23 : ProgramOffset := {| off_line := 2; off_column := 30 |}.

Definition threeErrors : list FlowError :=
  [inOtherFile; onFirstLine; missingAnnotation].

Definition twoRoots : list Invocation :=
  [ CallCollect "{errors:[]}" "/repo" true "src/a.js" offset5;
    CallCoverage "{expressions}" "/other" true "lib/b.js" ].

End Sample.

(** ** Loading the module *)

(** What the statements at the top of the module leave behind: the value of
    the variable [flowBin], or the status given to [process.exit]. *)
Inductive Startup :=
| Loaded (bin : option string)
| Exited (status : Z).

Section Startup.
Context {platform : Platform}.

(** The [try] block at the top of the module.  [required] is what
    [require('flow-bin')] evaluates to, [None] when it raises. *)
Definition loadModule (required : option string) : Startup :=
  if match env_FLOW_BIN with Some s => truthy s | None => false end
  then Loaded None
  else match required with
       | Some bin => Loaded (Some bin)
       | None => Exited 1
       end.

End Startup.

(** ** Looking for references *)

(** Whether [s] has a " [digits]" somewhere. *)
Fixpoint hasRef (s : string) : bool :=
  match matchRef s with
  | Some _ => true
  | None =>
      match s with
      | EmptyString => false
      | String _ s' => hasRef s'
      end
  end.

(** ** More concrete reports *)

Module Cases.

Definition noMessages : FlowError :=
  {| message := []; level := None; operation := None; extra := None |}.

Definition libDefinition : FlowLoc :=
  {| source := Some "/tmp/flow/flowlib/core.js";
     start := {| line := 212; column := 3; offset := 8000 |};
     end_ := {| line := 212; column := 9; offset := 8006 |};
     loc_type := LibFile |}.

Definition inLibrary : FlowMessage :=
  {| path := "/tmp/flow/flowlib/core.js"; descr := "[1]"; msg_type := Comment;
     msg_line := 212; endline := 212; loc := Some libDefinition |}.

Definition inSibling : FlowMessage :=
  {| path := "/repo/src/b.js"; descr := "[2]"; msg_type := Comment;
     msg_line := 14; endline := 14; loc := Some Sample.elsewhere |}.

(** No extras, although the description has a reference. *)
Definition bareReference : FlowError :=
  Sample.plain (Sample.blame "Cannot call f [1]" (Some Sample.here)).

(** A platform where FLOW_BIN is set. *)
Definition overridden : Platform :=
  Build_Platform Sample.resolve Sample.basename Sample.slash Sample.JSON_parse
    Sample.spawnSync (Some "/opt/flow/flow") None None.

End Cases.

(** * Properties *)

(** ** Strings *)

Lemma truthy_true (s : string) : truthy s = true <-> s <> "".
Proof.
  destruct s; simpl; split; intro H; try reflexivity; try discriminate.
  now contradiction H.
Qed.

Lemma truthy_false (s : string) : truthy s = false <-> s = "".
Proof.
  destruct s; simpl; split; intro H; try reflexivity; discriminate.
Qed.

Lemma append_assoc (a b c : string) : (a ++ b) ++ c = a ++ b ++ c.
Proof.
  induction a as [|x a IH]; simpl; [reflexivity | now rewrite IH].
Qed.

Lemma append_empty_r (a : string) : a ++ "" = a.
Proof.
  induction a as [|x a IH]; simpl; [reflexivity | now rewrite IH].
Qed.

Lemma length_append (a b : string) :
  String.length (a ++ b) = (String.length a + String.length b)%nat.
Proof.
  induction a as [|x a IH]; simpl; [reflexivity | now rewrite IH].
Qed.

Lemma startsWith_spec (p s : string) :
  startsWith p s = true <-> exists t, s = p ++ t.
Proof.
  revert s; induction p as [|a p IH]; intros s; simpl.
  - split; [intros _; now exists s | reflexivity].
  - destruct s as [|b s].
    + split; [discriminate | intros [t Ht]; discriminate].
    + rewrite andb_true_iff, Ascii.eqb_eq, IH. split.
      * intros [-> [t ->]]. now exists t.
      * intros [t Ht]. injection Ht as -> ->. split; [reflexivity | now exists t].
Qed.





(** ** The monad *)

Lemma mapM_Forall2 {A B} (f : A -> completion B) (xs : list A) (ys : list B) :
  mapM f xs = Return ys <-> Forall2 (fun x y => f x = Return y) xs ys.
Proof.
  revert ys; induction xs as [|x xs IH]; intros ys; simpl.
  - split.
    + intros H. injection H as <-. constructor.
    + intros H. inversion H. reflexivity.
  - split.
    + destruct (f x) as [y|] eqn:Hy; simpl; [|discriminate].
      destruct (mapM f xs) as [ys'|] eqn:Hys; simpl; [|discriminate].
      intros H. injection H as <-. constructor; [exact Hy | now apply IH].
    + intros H. inversion H as [|? y ? ys' Hy Hys]; subst.
      rewrite Hy. simpl. apply IH in Hys. rewrite Hys. reflexivity.
Qed.

Lemma mapM_total {A B} (f : A -> completion B) (xs : list A) :
  Forall (fun x => exists y, f x = Return y) xs ->
  exists ys, mapM f xs = Return ys.
Proof.
  induction 1 as [|x xs [y Hy] _ [ys Hys]]; simpl.
  - now exists [].
  - rewrite Hy, Hys. simpl. now exists (y :: ys).
Qed.

Lemma filterM_pure {A} (f : A -> completion bool) (g : A -> bool) (xs : list A) :
  Forall (fun x => f x = Return (g x)) xs ->
  filterM f xs = Return (filter g xs).
Proof.
  induction 1 as [|x xs Hx _ IH]; simpl; [reflexivity |].
  rewrite Hx, IH. simpl. reflexivity.
Qed.

Lemma filterM_total {A} (f : A -> completion bool) (xs : list A) :
  Forall (fun x => exists b, f x = Return b) xs ->
  exists ys, filterM f xs = Return ys
             /\ forall x, In x ys <-> In x xs /\ f x = Return true.
Proof.
  induction 1 as [|x xs [b Hb] _ [ys [Hys Hin]]]; simpl.
  - exists []. split; [reflexivity | simpl; tauto].
  - rewrite Hb, Hys. simpl. eexists. split; [reflexivity |].
    intros y. destruct b; simpl; rewrite ?Hin.
    + split.
      * intros [<- | [Hy Hfy]]; auto.
      * intros [[<- | Hy] Hfy]; auto.
    + split.
      * intros [Hy Hfy]; auto.
      * intros [[<- | Hy] Hfy]; auto. congruence.
Qed.

(** ** The filter of [collect] *)

Section Filter.
Context {platform : Platform}.
Variables (root filepath : string).

Lemma mainLocOfError_primary (e : FlowError) :
  message e <> [] -> mainLocOfError e = Return (primaryLocation e).
Proof.
  intros Hm. unfold mainLocOfError, primaryLocation.
  destruct (match operation e with Some op => loc op | None => None end);
    [reflexivity |].
  destruct (message e); [contradiction | reflexivity].
Qed.

Lemma keepError_total (e : FlowError) :
  message e <> [] -> exists b, keepError root (resolve root filepath) e = Return b.
Proof.
  intros Hm. unfold keepError. rewrite (mainLocOfError_primary e Hm). simpl.
  destruct (primaryLocation e) as [l|]; [|eauto].
  destruct (source l) as [s|]; [|eauto].
  destruct (truthy s); [|eauto].
  destruct (message e); [contradiction | eauto].
Qed.

(** The callback keeps exactly the diagnostics that meet the four
    conditions, the source being non-empty. *)
Lemma keepError_Kept (e : FlowError) :
  message e <> [] ->
  keepError root (resolve root filepath) e = Return true <-> Kept root filepath e.
Proof.
  intros Hm. unfold keepError, Kept. rewrite (mainLocOfError_primary e Hm). simpl.
  destruct (primaryLocation e) as [l|].
  2:{ split; [discriminate | intros (? & ? & ? & ? & H & _); discriminate]. }
  destruct (source l) as [s|] eqn:Hsrc.
  2:{ split; [discriminate |].
      intros (? & ? & ? & ? & H & H' & _). injection H as <-. congruence. }
  destruct (truthy s) eqn:Hs.
  2:{ apply truthy_false in Hs. subst s. split; [discriminate |].
      intros (? & ? & ? & ? & H & H' & Hne & _).
      injection H as <-. exfalso. apply Hne. congruence. }
  apply truthy_true in Hs.
  destruct (message e) as [|m rest]; [contradiction |].
  split.
  - intros H. injection H as H.
    rewrite !andb_true_iff, negb_true_iff, String.eqb_eq, truthy_true in H.
    destruct H as [[Hd Hi] Hr].
    exists l, s, m, rest. auto 10.
  - intros (l' & s' & m' & rest' & H & H' & Hne & Hmsg & Hd & Hi & Hr).
    injection H as <-. assert (s' = s) as -> by congruence.
    injection Hmsg as <- <-.
    f_equal. rewrite !andb_true_iff, negb_true_iff, String.eqb_eq, truthy_true.
    auto.
Qed.

End Filter.

(** ** The formatter *)

Section Formatter.
Context {platform : Platform}.

Lemma findExtra_defined (extras : list FlowMessage) (tok : string) :
  findExtra (map Some extras) tok = Return (matchingExtra extras tok).
Proof.
  unfold matchingExtra.
  induction extras as [|e es IH]; simpl; [reflexivity |].
  destruct (String.eqb (descr e) tok); [reflexivity | exact IH].
Qed.

Lemma replacer_defined (msg : FlowMessage) (extras : list FlowMessage)
    (root : string) (version : option string) (lineOffset : Z) (tok : string) :
  replacer msg (map Some extras) root version lineOffset (" " ++ tok) tok
  = Return (replacement msg extras root version lineOffset tok).
Proof.
  unfold replacer, replacement. rewrite findExtra_defined. simpl.
  destruct (matchingExtra extras tok) as [e|]; [|reflexivity].
  destruct (String.eqb (path e) (path msg)); simpl; [|reflexivity].
  destruct (Z.eqb (msg_line e) (msg_line msg)); reflexivity.
Qed.

Lemma matchingExtra_None (extras : list FlowMessage) (tok : string) :
  matchingExtra extras tok = None <-> forall e, In e extras -> descr e <> tok.
Proof.
  unfold matchingExtra. split.
  - intros H e He Heq.
    pose proof (find_none _ _ H e He) as Hf. simpl in Hf.
    apply String.eqb_neq in Hf. contradiction.
  - intros H. induction extras as [|e es IH]; simpl; [reflexivity |].
    destruct (String.eqb (descr e) tok) eqn:Heq.
    + apply String.eqb_eq in Heq. exfalso. apply (H e); simpl; auto.
    + apply IH. intros e' He'. apply H. simpl. auto.
Qed.

End Formatter.

(** ** The regular expression *)

Arguments matchRef : simpl never.

Lemma spanDigits_inv (s ds rest : string) :
  spanDigits s = (ds, rest) -> s = ds ++ rest /\ allDigits ds = true.
Proof.
  revert ds rest; induction s as [|c s IH]; intros ds rest H; simpl in H.
  - injection H as <- <-. auto.
  - destruct (isDigit c) eqn:Hc.
    + destruct (spanDigits s) as [ds' rest'] eqn:Hs. injection H as <- <-.
      destruct (IH _ _ eq_refl) as [-> Hd]. simpl. rewrite Hc. auto.
    + injection H as <- <-. auto.
Qed.

Lemma spanDigits_stop (ds : string) (c : ascii) (rest : string) :
  allDigits ds = true -> isDigit c = false ->
  spanDigits (ds ++ String c rest) = (ds, String c rest).
Proof.
  intros Hd Hc. induction ds as [|d ds IH]; simpl.
  - now rewrite Hc.
  - simpl in Hd. apply andb_true_iff in Hd as [Hd Hds].
    rewrite Hd, (IH Hds). reflexivity.
Qed.

(** A character that is not a digit, put behind [s], ends no later than
    where the run of digits of [s] ended. *)
Lemma spanDigits_append (s : string) (c : ascii) (t : string) :
  isDigit c = false ->
  spanDigits (s ++ String c t)
  = (fst (spanDigits s), snd (spanDigits s) ++ String c t).
Proof.
  intros Hc. induction s as [|d s IH]; simpl.
  - now rewrite Hc.
  - destruct (isDigit d); [|reflexivity].
    rewrite IH. destruct (spanDigits s). reflexivity.
Qed.

Lemma matchRef_inv (s g : string) :
  matchRef s = Some g -> IsRef g /\ exists rest, s = " " ++ g ++ rest.
Proof.
  unfold matchRef. destruct s as [|c0 [|c1 s1]]; try discriminate.
  destruct (Ascii.eqb c0 " " && Ascii.eqb c1 "[") eqn:Hc; [|discriminate].
  apply andb_true_iff in Hc as [H0 H1].
  apply Ascii.eqb_eq in H0, H1. subst c0 c1.
  destruct (spanDigits s1) as [ds rest] eqn:Hs.
  destruct ds as [|d ds]; [discriminate |].
  destruct rest as [|c2 rest]; [discriminate |].
  destruct (Ascii.eqb c2 "]") eqn:H2; [|discriminate].
  apply Ascii.eqb_eq in H2. subst c2.
  intros H. injection H as <-.
  apply spanDigits_inv in Hs as [-> Hd]. split.
  - exists (String d ds). repeat split; [discriminate | exact Hd].
  - exists rest. simpl. now rewrite !append_assoc.
Qed.

Lemma matchRef_ref (tok post : string) :
  IsRef tok -> matchRef (" " ++ tok ++ post) = Some tok.
Proof.
  intros (ds & Hne & Hd & ->). unfold matchRef. simpl.
  rewrite append_assoc. simpl.
  rewrite (spanDigits_stop ds "]" post Hd eq_refl).
  destruct ds; [contradiction | reflexivity].
Qed.

(** Text that starts with a space, put behind a non-empty [pre], changes
    nothing to a match at the head of [pre]: a match that starts in [pre]
    ends in [pre]. *)
Lemma matchRef_append (pre t : string) :
  pre <> "" -> matchRef (pre ++ String " " t) = matchRef pre.
Proof.
  intros Hne. destruct pre as [|c0 pre]; [contradiction |].
  unfold matchRef. destruct pre as [|c1 s1]; simpl.
  - destruct (Ascii.eqb c0 " "); reflexivity.
  - destruct (Ascii.eqb c0 " " && Ascii.eqb c1 "["); [|reflexivity].
    rewrite (spanDigits_append s1 " " t eq_refl).
    destruct (spanDigits s1) as [ds rest]. simpl.
    destruct ds as [|d ds]; [reflexivity |].
    destruct rest as [|c2 rest]; reflexivity.
Qed.

Section Replace.
Variable f : string -> string -> completion string.

Lemma replaceRefs_skip (k : nat) (s : string) :
  replaceRefs f k s = replaceRefs f O (drop k s).
Proof.
  revert k; induction s as [|c s IH]; intros [|k]; try reflexivity.
  simpl. apply IH.
Qed.

Lemma drop_append (a b : string) : drop (String.length a) (a ++ b) = b.
Proof.
  induction a as [|x a IH]; simpl; [now destruct b | exact IH].
Qed.

Lemma replaceRefs_total :
  (forall m t, exists r, f m t = Return r) ->
  forall s k, exists r, replaceRefs f k s = Return r.
Proof.
  intros Hf. induction s as [|c s IH]; intros k; simpl; [eauto |].
  destruct k as [|k]; [|apply IH].
  destruct (matchRef (String c s)) as [g|].
  - destruct (Hf (String " " g) g) as [r ->].
    destruct (IH (String.length g)) as [t ->]. simpl. eauto.
  - destruct (IH O) as [t ->]. simpl. eauto.
Qed.

(** Text without a reference comes back as it is. *)
Lemma replaceRefs_RefFree (s : string) :
  RefFree s -> replaceRefs f O s = Return s.
Proof.
  induction s as [|c s IH]; intros Hfree; [reflexivity |].
  cbn [replaceRefs].
  destruct (matchRef (String c s)) as [g|] eqn:Hm.
  - apply matchRef_inv in Hm as [Hg [rest Hs]].
    exfalso. apply (Hfree "" g rest Hg). exact Hs.
  - rewrite IH; [reflexivity |].
    intros pre tok post Htok Heq. apply (Hfree (String c pre) tok post Htok).
    simpl. now rewrite Heq.
Qed.

(** A reference between [pre] and [post] is replaced by what [f] returns
    for it, and [pre] and [post] are rewritten on their own. *)
Lemma replaceRefs_append (tok post r b : string) :
  IsRef tok ->
  f (" " ++ tok) tok = Return r ->
  replaceRefs f O post = Return b ->
  forall pre k a,
    (k <= String.length pre)%nat ->
    replaceRefs f k pre = Return a ->
    replaceRefs f k (pre ++ " " ++ tok ++ post) = Return (a ++ r ++ b).
Proof.
  intros Htok Hr Hb. induction pre as [|c pre IH]; intros k a Hk Ha.
  - assert (k = O) as -> by (simpl in Hk; lia).
    simpl in Ha. injection Ha as <-.
    change ("" ++ " " ++ tok ++ post) with (String " " (tok ++ post)).
    cbn [replaceRefs].
    change (String " " (tok ++ post)) with (" " ++ tok ++ post).
    rewrite (matchRef_ref tok post Htok), Hr. simpl.
    rewrite replaceRefs_skip, drop_append, Hb. reflexivity.
  - change (String c pre ++ " " ++ tok ++ post)
      with (String c (pre ++ " " ++ tok ++ post)).
    cbn [replaceRefs] in Ha |- *.
    destruct k as [|k].
    + change (String c (pre ++ " " ++ tok ++ post))
        with (String c pre ++ String " " (tok ++ post)).
      rewrite matchRef_append by discriminate.
      destruct (matchRef (String c pre)) as [g|] eqn:Hm.
      * destruct (f (" " ++ g) g) as [rg|]; [|discriminate]. simpl in Ha |- *.
        destruct (replaceRefs f (String.length g) pre) as [t|] eqn:Ht;
          [|discriminate].
        simpl in Ha. injection Ha as <-.
        apply matchRef_inv in Hm as [_ [rest Hrest]].
        assert (String.length g <= String.length pre)%nat as Hlen.
        { simpl in Hrest. injection Hrest as _ ->.
          rewrite length_append. lia. }
        change (String " " (tok ++ post)) with (" " ++ tok ++ post).
        rewrite (IH _ _ Hlen Ht). simpl. now rewrite append_assoc.
      * destruct (replaceRefs f O pre) as [t|] eqn:Ht; [|discriminate].
        simpl in Ha. injection Ha as <-.
        change (String " " (tok ++ post)) with (" " ++ tok ++ post).
        rewrite (IH _ _ (Nat.le_0_l _) Ht). reflexivity.
    + simpl in Hk. apply IH; [lia | exact Ha].
Qed.

End Replace.

(** ** The map of [collect] *)

Section Normalize.
Context {platform : Platform}.
Variables (json : Envelope) (root : string) (programOffset : ProgramOffset).

Lemma extras_defined (es : list FlowExtra) :
  Forall (fun e => extra_message e <> []) es ->
  exists ms, map (fun e => hd_error (extra_message e)) es = map Some ms.
Proof.
  induction 1 as [|e es He _ [ms Hms]].
  - now exists [].
  - destruct (extra_message e) as [|m rest] eqn:Hm; [contradiction |].
    exists (m :: ms). simpl. now rewrite Hm, Hms.
Qed.

Lemma formatDescr_total (msg : FlowMessage) (extras : list FlowMessage)
    (version : option string) (lineOffset : Z) (text : string) :
  exists r,
    formatDescr msg (map Some extras) root version lineOffset text = Return r.
Proof.
  apply replaceRefs_total. intros m t. unfold replacer.
  rewrite findExtra_defined. simpl.
  destruct (matchingExtra extras t) as [e|]; [|eauto].
  destruct (negb (String.eqb (path e) (path msg))); [eauto |].
  destruct (Z.eqb (msg_line e) (msg_line msg)); eauto.
Qed.

Lemma normalizeError_total (e : FlowError) :
  WellFormed e -> exists o, normalizeError json root programOffset e = Return o.
Proof.
  intros [Hm Hex]. unfold normalizeError.
  destruct (message e) as [|m rest]; [contradiction |].
  destruct (extra e) as [[|x xs]|] eqn:He.
  - simpl. destruct (locOrDefault (loc m)). eauto.
  - destruct (extras_defined (x :: xs) (Hex _ eq_refl)) as [ms ->].
    unfold formatMessage.
    destruct (formatDescr_total m ms (flowVersion json)
                (off_line programOffset) (descr m)) as [r ->].
    simpl. destruct (locOrDefault (loc m)). eauto.
  - simpl. destruct (locOrDefault (loc m)). eauto.
Qed.

(** What the callback writes into a record, whatever the message text. *)
Lemma normalizeError_fields (e : FlowError) (m : FlowMessage)
    (rest : list FlowMessage) (o : CollectOutputElement) :
  message e = m :: rest ->
  normalizeError json root programOffset e = Return o ->
  out_type o = Some (determineRuleType (out_message o))
  /\ out_level o = levelOrError (level e)
  /\ out_path o = Some (path m)
  /\ out_loc o = {| loc_start := shiftPos programOffset (fst (locOrDefault (loc m)));
                    loc_end := shiftPos programOffset (snd (locOrDefault (loc m))) |}
  /\ out_start o = Some (line (fst (locOrDefault (loc m))) + off_line programOffset)
  /\ out_end o = Some (line (snd (locOrDefault (loc m))) + off_line programOffset).
Proof.
  intros Hm. unfold normalizeError. rewrite Hm.
  destruct (match extra e with
            | Some (x :: xs) => _
            | _ => Return (descr m)
            end) as [msg|]; [|discriminate].
  simpl. destruct (locOrDefault (loc m)) as [s t]. intros H.
  injection H as <-. simpl. auto 10.
Qed.


Lemma normalizeError_operation (e : FlowError) (op : option FlowMessage) :
  normalizeError json root programOffset (withOperation e op)
  = normalizeError json root programOffset e.
Proof. reflexivity. Qed.

(** On a well-formed report [collect] returns, and its records are those
    of the diagnostics that meet the conditions of the filter, in order. *)
Lemma collectJson_shape (errs : list FlowError) (filepath : string) :
  errors json = Some errs ->
  Forall WellFormed errs ->
  exists kept outs,
    collectJson (Some (JsonValue json)) root filepath programOffset
    = Return (CollectOutput outs)
    /\ (forall e, In e kept <-> In e errs /\ Kept root filepath e)
    /\ Forall2 (fun e o => normalizeError json root programOffset e = Return o)
               kept outs.
Proof.
  intros Herrs Hwf. unfold collectJson. rewrite Herrs.
  destruct (filterM_total (keepError root (resolve root filepath)) errs)
    as [kept [Hkept Hin]].
  { eapply Forall_impl; [|exact Hwf]. intros e [Hm _].
    now apply keepError_total. }
  assert (forall e, In e kept <-> In e errs /\ Kept root filepath e) as Hin'.
  { intros e. rewrite Hin. rewrite Forall_forall in Hwf. split.
    - intros [He Hk]. split; [exact He |].
      apply keepError_Kept; [apply (Hwf e He) | exact Hk].
    - intros [He Hk]. split; [exact He |].
      apply keepError_Kept; [apply (Hwf e He) | exact Hk]. }
  destruct (mapM_total (normalizeError json root programOffset) kept)
    as [outs Houts].
  { apply Forall_forall. intros e He. apply normalizeError_total.
    rewrite Forall_forall in Hwf. apply Hwf. now apply Hin'. }
  exists kept, outs. rewrite Hkept. simpl. rewrite Houts. simpl.
  split; [reflexivity |]. split; [exact Hin' |].
  now apply mapM_Forall2.
Qed.

End Normalize.

Lemma Forall2_In_left {A B} (R : A -> B -> Prop) (xs : list A) (ys : list B) (x : A) :
  Forall2 R xs ys -> In x xs -> exists y, In y ys /\ R x y.
Proof.
  induction 1 as [|x' y' xs ys Hxy _ IH]; simpl; [tauto |].
  intros [<- | Hx]; [eauto |].
  destruct (IH Hx) as [y [Hy Hr]]. eauto.
Qed.

Lemma Forall2_In_right {A B} (R : A -> B -> Prop) (xs : list A) (ys : list B) (y : B) :
  Forall2 R xs ys -> In y ys -> exists x, In x xs /\ R x y.
Proof.
  induction 1 as [|x' y' xs ys Hxy _ IH]; simpl; [tauto |].
  intros [<- | Hy]; [eauto |].
  destruct (IH Hy) as [x [Hx Hr]]. eauto.
Qed.

Lemma shiftPos_line (programOffset : ProgramOffset) (p : FlowPos) :
  pos_line (shiftPos programOffset p) = line p + off_line programOffset.
Proof. reflexivity. Qed.

Lemma shiftPos_column_first (programOffset : ProgramOffset) (p : FlowPos) :
  line p = 0 ->
  pos_column (shiftPos programOffset p) = column p + off_column programOffset.
Proof. intros H. simpl. now rewrite H. Qed.

Lemma shiftPos_column_other (programOffset : ProgramOffset) (p : FlowPos) :
  line p <> 0 -> pos_column (shiftPos programOffset p) = column p.
Proof.
  intros H. simpl. destruct (Z.eqb_spec (line p) 0); [contradiction | reflexivity].
Qed.



Ltac well_formed :=
  repeat constructor; try discriminate;
  let es := fresh "es" in
  let H := fresh "H" in
  intros es H;
  first [ discriminate H
        | injection H as <-; repeat constructor; discriminate ].

(** ** The invoker *)

Section Invoker.
Context {platform : Platform}.

Lemma spawnFlow_empty (mode root : string) (stopOnExit : bool)
    (filepath : string) (st : ProcessState) :
  spawnFlow mode "" root stopOnExit filepath st = (SpawnSentinel true, st).
Proof. reflexivity. Qed.

Lemma spawnFlow_silent (mode input root : string) (stopOnExit : bool)
    (filepath : string) (st : ProcessState) :
  input <> "" ->
  NoStdout (spawnSync (spawned st) (flowCall mode input root filepath)) ->
  spawnFlow mode input root stopOnExit filepath st
  = (SpawnSentinel false, recordSpawn (flowCall mode input root filepath) st).
Proof.
  intros Hin Hout. unfold spawnFlow.
  rewrite (proj2 (truthy_true input) Hin). simpl.
  destruct Hout as [-> | ->]; reflexivity.
Qed.

Lemma spawnFlow_text (mode input root : string) (stopOnExit : bool)
    (filepath : string) (st : ProcessState) (stdout : string) :
  input <> "" ->
  spawnSync (spawned st) (flowCall mode input root filepath) = Some stdout ->
  stdout <> "" ->
  spawnFlow mode input root stopOnExit filepath st
  = (SpawnStdout stdout,
     if stopOnExit
     then onExit root (recordSpawn (flowCall mode input root filepath) st)
     else recordSpawn (flowCall mode input root filepath) st).
Proof.
  intros Hin Hout Hne. unfold spawnFlow.
  rewrite (proj2 (truthy_true input) Hin). simpl. rewrite Hout.
  rewrite (proj2 (truthy_true stdout) Hne). reflexivity.
Qed.

Lemma collect_state (stdin root : string) (stopOnExit : bool) (filepath : string)
    (programOffset : ProgramOffset) (st : ProcessState) :
  snd (collect stdin root stopOnExit filepath programOffset st)
  = snd (spawnFlow "check-contents" stdin root stopOnExit filepath st).
Proof.
  unfold collect.
  destruct (spawnFlow "check-contents" stdin root stopOnExit filepath st)
    as [[b | out] st']; reflexivity.
Qed.

Lemma coverage_state (stdin root : string) (stopOnExit : bool) (filepath : string)
    (st : ProcessState) :
  snd (coverage stdin root stopOnExit filepath st)
  = snd (spawnFlow "coverage" stdin root stopOnExit filepath st).
Proof.
  unfold coverage.
  destruct (spawnFlow "coverage" stdin root stopOnExit filepath st)
    as [[b | out] st']; reflexivity.
Qed.

Lemma invoke_spawnFlow (st : ProcessState) (i : Invocation) :
  invoke st i
  = snd (spawnFlow (inv_mode i) (inv_stdin i) (inv_root i) (inv_stopOnExit i)
                   (inv_filepath i) st).
Proof.
  destruct i; simpl; [apply collect_state | apply coverage_state].
Qed.

(** What one call does to the flag and to the listeners. *)
Lemma invoke_flag (st : ProcessState) (i : Invocation) :
  didExecute (invoke st i) = didExecute st || reachesOnExit st i
  /\ exitListeners (invoke st i)
     = if reachesOnExit st i && negb (didExecute st)
       then (exitListeners st ++ [inv_root i])%list
       else exitListeners st.
Proof.
  rewrite invoke_spawnFlow. unfold reachesOnExit, stdoutOf, spawnFlow.
  destruct (truthy (inv_stdin i)); simpl.
  2:{ rewrite andb_false_r, orb_false_r. auto. }
  rewrite andb_true_r.
  destruct (spawnSync (spawned st) _) as [out|]; simpl.
  2:{ rewrite andb_false_r, orb_false_r. auto. }
  destruct (truthy out); simpl.
  2:{ rewrite andb_false_r, orb_false_r. auto. }
  rewrite andb_true_r.
  destruct (inv_stopOnExit i); simpl.
  2:{ rewrite orb_false_r. auto. }
  unfold onExit. simpl.
  destruct (didExecute st) eqn:Hd; simpl; rewrite ?Hd; auto.
Qed.

Lemma runAll_flag (calls : list Invocation) (st : ProcessState) :
  didExecute (runAll calls st)
  = didExecute st
    || match firstReaching calls st with Some _ => true | None => false end
  /\ exitListeners (runAll calls st)
     = if didExecute st then exitListeners st
       else (exitListeners st
             ++ match firstReaching calls st with Some r => [r] | None => [] end)%list.
Proof.
  revert st; induction calls as [|i calls IH]; intros st.
  - unfold runAll. simpl. rewrite orb_false_r, app_nil_r.
    now destruct (didExecute st).
  - change (runAll (i :: calls) st) with (runAll calls (invoke st i)).
    cbn [firstReaching].
    destruct (IH (invoke st i)) as [Hd Hl].
    destruct (invoke_flag st i) as [Hd' Hl'].
    rewrite Hd, Hl, Hd', Hl'.
    destruct (didExecute st), (reachesOnExit st i); simpl; auto.
Qed.

End Invoker.

(** * The claims *)

Section Claims.
Context {platform : Platform}.

(** C1, as the code has it.  On a report whose diagnostics have their
    messages, [collect] returns one record for each diagnostic it keeps, in
    order, and it keeps a diagnostic if and only if its primary location (the
    operation's location if present, else the first message's) has a source
    that is neither null nor empty, the first description is non-empty and
    does not contain "inconsistent use of", and the source resolved against
    the root equals the file path resolved against the root.  In particular
    no record comes from a diagnostic whose primary file is another file. *)
Theorem collect_filter (json : Envelope) (errs : list FlowError)
    (root filepath : string) (programOffset : ProgramOffset) :
  errors json = Some errs ->
  Forall WellFormed errs ->
  exists kept outs,
    collectJson (Some (JsonValue json)) root filepath programOffset
    = Return (CollectOutput outs)
    /\ Forall2 (fun e o => normalizeError json root programOffset e = Return o)
               kept outs
    /\ (forall e, In e kept <-> In e errs /\ Kept root filepath e)
    /\ (forall e l mainFile,
          In e kept -> primaryLocation e = Some l -> source l = Some mainFile ->
          resolve root mainFile = resolve root filepath).
Proof.
  intros Herrs Hwf.
  destruct (collectJson_shape json root programOffset errs filepath Herrs Hwf)
    as (kept & outs & Hres & Hin & Hall).
  exists kept, outs.
  split; [exact Hres |]. split; [exact Hall |]. split; [exact Hin |].
  intros e l mainFile He Hl Hs.
  apply Hin in He as [_ (l' & s' & _ & _ & Hl' & Hs' & _ & _ & _ & _ & Hr)].
  congruence.
Qed.

(** C2.  For every diagnostic that survives the filter and whose first
    message has a location: the start and end lines of its record are the raw
    lines plus the line of the offset; the column of a coordinate grows by the
    column of the offset exactly when the raw line of that coordinate is 0;
    the byte offsets are those of the raw location. *)
Theorem collect_offsets (json : Envelope) (errs : list FlowError)
    (root filepath : string) (programOffset : ProgramOffset) :
  errors json = Some errs ->
  Forall WellFormed errs ->
  exists kept outs,
    collectJson (Some (JsonValue json)) root filepath programOffset
    = Return (CollectOutput outs)
    /\ (forall e, In e kept <-> In e errs /\ Kept root filepath e)
    /\ Forall2 (fun e o => forall m rest l,
                  message e = m :: rest -> loc m = Some l ->
                  Shifted programOffset l o)
               kept outs.
Proof.
  intros Herrs Hwf.
  destruct (collectJson_shape json root programOffset errs filepath Herrs Hwf)
    as (kept & outs & Hres & Hin & Hall).
  exists kept, outs. split; [exact Hres |]. split; [exact Hin |].
  eapply Forall2_impl; [|exact Hall]. cbv beta.
  intros e o Ho m rest l Hm Hl.
  destruct (normalizeError_fields json root programOffset e m rest o Hm Ho)
    as (_ & _ & _ & Hloc & Hstart & Hend).
  rewrite Hl in Hloc, Hstart, Hend. simpl in Hloc, Hstart, Hend.
  unfold Shifted. rewrite Hloc, Hstart, Hend. cbn [out_loc loc_start loc_end].
  rewrite !shiftPos_line.
  repeat split; auto using shiftPos_column_first, shiftPos_column_other.
Qed.


(** C10, as the code has it.  In a report whose diagnostics each have at
    least one message, and whose extras each have one: a diagnostic whose
    operation has a location with a non-empty source that resolves to the
    target file, whose first message has no location, and whose first
    description is non-empty and free of "inconsistent use of", is kept: its
    record is in the output, with start and end at line 1 plus the line of
    the offset, column 1 and offset 0.  The record does not depend on the
    operation at all. *)
Theorem operation_location_only (json : Envelope) (errs : list FlowError)
    (root filepath : string) (programOffset : ProgramOffset)
    (e : FlowError) (op : FlowMessage) (l : FlowLoc) (mainFile : string)
    (m : FlowMessage) (rest : list FlowMessage) :
  errors json = Some errs ->
  Forall WellFormed errs ->
  In e errs ->
  operation e = Some op -> loc op = Some l ->
  source l = Some mainFile -> mainFile <> "" ->
  resolve root mainFile = resolve root filepath ->
  message e = m :: rest -> loc m = None ->
  descr m <> "" -> includes "inconsistent use of" (descr m) = false ->
  exists outs o,
    collectJson (Some (JsonValue json)) root filepath programOffset
    = Return (CollectOutput outs)
    /\ In o outs
    /\ normalizeError json root programOffset e = Return o
    /\ out_loc o = defaultLoc programOffset
    /\ out_start o = Some (1 + off_line programOffset)
    /\ out_end o = Some (1 + off_line programOffset)
    /\ forall op', normalizeError json root programOffset (withOperation e op')
                   = Return o.
Proof.
  intros Herrs Hwf He Hop Hl Hs Hne Hr Hm Hloc Hd Hi.
  destruct (collectJson_shape json root programOffset errs filepath Herrs Hwf)
    as (kept & outs & Hres & Hin & Hall).
  assert (In e kept) as Hk.
  { apply Hin. split; [exact He |].
    exists l, mainFile, m, rest.
    unfold primaryLocation. rewrite Hop, Hl. auto 10. }
  destruct (Forall2_In_left _ _ _ e Hall Hk) as [o [Ho Hn]].
  destruct (normalizeError_fields json root programOffset e m rest o Hm Hn)
    as (_ & _ & _ & Hloc' & Hstart & Hend).
  rewrite Hloc in Hloc', Hstart, Hend.
  exists outs, o. repeat split; auto.
Qed.

(** C3.  [formatMessage] rewrites a description reference by reference: a
    description without " [digits]" comes back unchanged; a description
    [pre ++ " " ++ tok ++ post], [tok] being "[digits]", comes back as the
    rewritten [pre], the replacement of the reference and the rewritten
    [post].  The replacement is the matched text itself when no extra has
    [tok] as its description; with the first such extra on the path of the
    message it is the empty string when the lines are equal and
    " (see line N)", N being the line offset plus the line of the extra, when
    they differ.  The function returns a new string; its arguments are values
    and stay what they are. *)
Theorem formatMessage_references (msg : FlowMessage) (extras : list FlowMessage)
    (root : string) (version : option string) (lineOffset : Z) :
  (forall text,
      RefFree text ->
      formatMessage (withDescr msg text) (map Some extras) root version lineOffset
      = Return text)
  /\ (forall pre tok post,
        IsRef tok ->
        exists a b,
          formatMessage (withDescr msg pre) (map Some extras) root version lineOffset
          = Return a
          /\ formatMessage (withDescr msg post) (map Some extras) root version
                           lineOffset
             = Return b
          /\ formatMessage (withDescr msg (pre ++ " " ++ tok ++ post))
                           (map Some extras) root version lineOffset
             = Return (a ++ replacement msg extras root version lineOffset tok ++ b))
  /\ (forall tok,
        (forall e, In e extras -> descr e <> tok) ->
        replacement msg extras root version lineOffset tok = " " ++ tok)
  /\ (forall tok e,
        matchingExtra extras tok = Some e ->
        path e = path msg -> msg_line e = msg_line msg ->
        replacement msg extras root version lineOffset tok = "")
  /\ (forall tok e,
        matchingExtra extras tok = Some e ->
        path e = path msg -> msg_line e <> msg_line msg ->
        replacement msg extras root version lineOffset tok
        = " (see line " ++ ofNumber (lineOffset + msg_line e) ++ ")").
Proof.
  repeat split.
  - intros text Hfree. unfold formatMessage, formatDescr. simpl.
    now apply replaceRefs_RefFree.
  - intros pre tok post Htok. unfold formatMessage. simpl.
    destruct (formatDescr_total root (withDescr msg pre) extras version
                lineOffset pre) as [a Ha].
    destruct (formatDescr_total root (withDescr msg post) extras version
                lineOffset post) as [b Hb].
    exists a, b. split; [exact Ha |]. split; [exact Hb |].
    unfold formatDescr in *.
    apply (replaceRefs_append _ tok post
             (replacement msg extras root version lineOffset tok) b Htok).
    + apply (replacer_defined (withDescr msg (pre ++ " " ++ tok ++ post))).
    + exact Hb.
    + apply Nat.le_0_l.
    + exact Ha.
  - intros tok Hnone. unfold replacement.
    now rewrite (proj2 (matchingExtra_None extras tok) Hnone).
  - intros tok e He Hp Hl. unfold replacement.
    rewrite He, Hp, String.eqb_refl, Hl, Z.eqb_refl. reflexivity.
  - intros tok e He Hp Hl. unfold replacement.
    rewrite He, Hp, String.eqb_refl.
    destruct (Z.eqb_spec (msg_line e) (msg_line msg)); [contradiction | reflexivity].
Qed.

(** C5.  When the checker printed text for a non-empty input and the text
    does not parse as JSON, [collect] returns, without raising, a sequence of
    exactly one record: severity Error, message "Flow returned invalid json",
    location from line 1, column 1 to line 1, column 1. *)
Theorem collect_invalid_json (stdin root : string) (stopOnExit : bool)
    (filepath : string) (programOffset : ProgramOffset) (st : ProcessState)
    (stdout : string) :
  stdin <> "" ->
  spawnSync (spawned st) (flowCall "check-contents" stdin root filepath)
  = Some stdout ->
  stdout <> "" ->
  JSON_parse stdout = None ->
  fst (collect stdin root stopOnExit filepath programOffset st)
  = Return (CollectOutput [fatalRecord "Flow returned invalid json"]).
Proof.
  intros Hin Hout Hne Hparse. unfold collect.
  rewrite (spawnFlow_text _ _ _ _ _ _ _ Hin Hout Hne). simpl.
  rewrite Hparse. reflexivity.
Qed.

(** X12, towards C6: a parsed value other than [null] whose [errors] is not an
    array gives the single fatal record, with the message built from [exit]
    when there is one and the generic message otherwise. *)
Lemma collect_malformed_envelope (stdin root : string) (stopOnExit : bool)
    (filepath : string) (programOffset : ProgramOffset) (st : ProcessState)
    (stdout : string) (json : Envelope) :
  stdin <> "" ->
  spawnSync (spawned st) (flowCall "check-contents" stdin root filepath)
  = Some stdout ->
  stdout <> "" ->
  JSON_parse stdout = Some (JsonValue json) ->
  errors json = None ->
  fst (collect stdin root stopOnExit filepath programOffset st)
  = Return (CollectOutput
      [fatalRecord
         match exit json with
         | Some e => "Flow returned an error: " ++ orUndefined (exit_msg e)
                     ++ " (code: "
                     ++ orUndefined (option_map ofNumber (exit_code e)) ++ ")"
         | None => "Flow returned invalid json"
         end]).
Proof.
  intros Hin Hout Hne Hparse Herrs. unfold collect.
  rewrite (spawnFlow_text _ _ _ _ _ _ _ Hin Hout Hne). simpl.
  rewrite Hparse. simpl. rewrite Herrs.
  destruct (exit json); reflexivity.
Qed.

(** C6, where the code departs from it.  When the checker's text parses to
    [null], no [errors] sequence is there, yet [collect] returns no fatal
    record: reading [errors] off [null] raises. *)
Theorem collect_null_json_raises (stdin root : string) (stopOnExit : bool)
    (filepath : string) (programOffset : ProgramOffset) (st : ProcessState)
    (stdout : string) :
  stdin <> "" ->
  spawnSync (spawned st) (flowCall "check-contents" stdin root filepath)
  = Some stdout ->
  stdout <> "" ->
  JSON_parse stdout = Some JsonNull ->
  fst (collect stdin root stopOnExit filepath programOffset st) = Throw.
Proof.
  intros Hin Hout Hne Hparse. unfold collect.
  rewrite (spawnFlow_text _ _ _ _ _ _ _ Hin Hout Hne). simpl.
  rewrite Hparse. reflexivity.
Qed.

(** X13, towards C4: text that does not parse, or parses to [null], gives the two
    zero counters; a value with [expressions] gives its two counters as they
    are. *)
Lemma coverage_counts (stdin root : string) (stopOnExit : bool)
    (filepath : string) (st : ProcessState) (stdout : string) :
  stdin <> "" ->
  spawnSync (spawned st) (flowCall "coverage" stdin root filepath) = Some stdout ->
  stdout <> "" ->
  (JSON_parse stdout = None \/ JSON_parse stdout = Some JsonNull ->
   fst (coverage stdin root stopOnExit filepath st)
   = Return (CoverageCounts {| coveredCount := Some 0; uncoveredCount := Some 0 |}))
  /\ (forall json e,
        JSON_parse stdout = Some (JsonValue json) -> expressions json = Some e ->
        fst (coverage stdin root stopOnExit filepath st)
        = Return (CoverageCounts {| coveredCount := covered_count e;
                                    uncoveredCount := uncovered_count e |})).
Proof.
  intros Hin Hout Hne. unfold coverage.
  rewrite (spawnFlow_text _ _ _ _ _ _ _ Hin Hout Hne). simpl. split.
  - intros [-> | ->]; reflexivity.
  - intros json e -> He. simpl. now rewrite He.
Qed.

(** C4, where the code departs from it.  When the checker's text parses to
    a value without [expressions], [coverage] does not return the zero
    counters: the read of [covered_count], behind the [try] block, raises. *)
Theorem coverage_missing_expressions_raises (stdin root : string)
    (stopOnExit : bool) (filepath : string) (st : ProcessState)
    (stdout : string) (json : Envelope) :
  stdin <> "" ->
  spawnSync (spawned st) (flowCall "coverage" stdin root filepath) = Some stdout ->
  stdout <> "" ->
  JSON_parse stdout = Some (JsonValue json) ->
  expressions json = None ->
  fst (coverage stdin root stopOnExit filepath st) = Throw.
Proof.
  intros Hin Hout Hne Hparse He. unfold coverage.
  rewrite (spawnFlow_text _ _ _ _ _ _ _ Hin Hout Hne). simpl.
  rewrite Hparse. simpl. now rewrite He.
Qed.

(** C7.  With empty input [collect] and [coverage] return [true] and leave
    the process as it was: nothing is spawned.  With non-empty input and no
    captured stdout they return [false], which is not the empty sequence that
    [collect] returns for a report with zero diagnostics. *)
Theorem sentinels (stdin root : string) (stopOnExit : bool) (filepath : string)
    (programOffset : ProgramOffset) (st : ProcessState) :
  collect "" root stopOnExit filepath programOffset st
  = (Return (CollectSentinel true), st)
  /\ coverage "" root stopOnExit filepath st
     = (Return (CoverageSentinel true), st)
  /\ (stdin <> "" ->
      NoStdout (spawnSync (spawned st)
                  (flowCall "check-contents" stdin root filepath)) ->
      fst (collect stdin root stopOnExit filepath programOffset st)
      = Return (CollectSentinel false))
  /\ (stdin <> "" ->
      NoStdout (spawnSync (spawned st) (flowCall "coverage" stdin root filepath)) ->
      fst (coverage stdin root stopOnExit filepath st)
      = Return (CoverageSentinel false))
  /\ CollectSentinel false <> CollectOutput []
  /\ (forall json,
        errors json = Some [] ->
        collectJson (Some (JsonValue json)) root filepath programOffset
        = Return (CollectOutput [])).
Proof.
  repeat split.
  - intros Hin Hout. unfold collect.
    now rewrite (spawnFlow_silent _ _ _ _ _ _ Hin Hout).
  - intros Hin Hout. unfold coverage.
    now rewrite (spawnFlow_silent _ _ _ _ _ _ Hin Hout).
  - discriminate.
  - intros json Herrs. unfold collectJson. now rewrite Herrs.
Qed.

(** C9, as the code has it.  In a process that starts with the flag unset:
    after any sequence of calls the listeners are the one hook for the root
    of the first call that asked for the stop on exit, had non-empty input
    and got non-empty stdout, or none when there was no such call; the flag is
    set exactly when there was one.  A call of that kind leaves the flag set,
    and registers the hook for its own root when the flag was unset.  Once the
    flag is set no call clears it or adds a hook.  On exit each registered
    hook spawns the checker with "stop" and its root. *)
Theorem exit_hook_once (calls : list Invocation) :
  exitListeners (runAll calls initialState)
  = match firstReaching calls initialState with Some r => [r] | None => [] end
  /\ (didExecute (runAll calls initialState) = true
      <-> firstReaching calls initialState <> None)
  /\ (length (exitListeners (runAll calls initialState)) <= 1)%nat
  /\ (forall st i,
        reachesOnExit st i = true ->
        didExecute (invoke st i) = true
        /\ (didExecute st = false ->
            exitListeners (invoke st i)
            = (exitListeners st ++ [inv_root i])%list))
  /\ (forall st i,
        didExecute st = true ->
        didExecute (invoke st i) = true
        /\ exitListeners (invoke st i) = exitListeners st)
  /\ spawned (processExit (runAll calls initialState))
     = (spawned (runAll calls initialState)
        ++ map stopCall (exitListeners (runAll calls initialState)))%list.
Proof.
  destruct (runAll_flag calls initialState) as [Hd Hl]. simpl in Hd, Hl.
  rewrite Hd, Hl.
  split; [reflexivity |].
  split.
  { destruct (firstReaching calls initialState); split; congruence. }
  split.
  { destruct (firstReaching calls initialState); simpl; lia. }
  split.
  { intros st i H. destruct (invoke_flag st i) as [Hd' Hl']. split.
    - rewrite Hd', H. apply orb_true_r.
    - intros Hf. now rewrite Hl', H, Hf. }
  split.
  { intros st i H. destruct (invoke_flag st i) as [Hd' Hl']. split.
    - now rewrite Hd', H.
    - rewrite Hl', H. now rewrite andb_false_r. }
  unfold processExit. simpl. now rewrite Hl.
Qed.

End Claims.

(** * The claims on concrete reports *)

(** C1 as worded fails: a diagnostic whose primary location has the empty
    string as source meets the four conditions as worded when the file path
    resolves to the root itself, and [collect] drops it. *)
Lemma filter_drops_empty_source :
  In Sample.emptySource [Sample.emptySource]
  /\ KeptAsWorded (platform := Sample.platform) "/repo" "" Sample.emptySource
  /\ collectJson (platform := Sample.platform)
       (Some (JsonValue (Sample.report [Sample.emptySource])))
       "/repo" "" Sample.offset5
     = Return (CollectOutput []).
Proof.
  split; [now left |]. split; [|reflexivity].
  exists Sample.unnamed, "", (Sample.blame "Cannot call" (Some Sample.unnamed)), [].
  repeat split. discriminate.
Qed.

(** The filter on a report of three diagnostics, one of them in another file. *)
Lemma collect_filter_witness :
  errors (Sample.report Sample.threeErrors) = Some Sample.threeErrors
  /\ Forall WellFormed Sample.threeErrors
  /\ exists kept outs,
       collectJson (platform := Sample.platform)
         (Some (JsonValue (Sample.report Sample.threeErrors)))
         "/repo" "src/a.js" Sample.offset23
       = Return (CollectOutput outs)
       /\ Forall2 (fun e o =>
                     normalizeError (platform := Sample.platform)
                       (Sample.report Sample.threeErrors) "/repo" Sample.offset23 e
                     = Return o)
                  kept outs
       /\ (forall e, In e kept
                     <-> In e Sample.threeErrors
                         /\ Kept (platform := Sample.platform) "/repo" "src/a.js" e)
       /\ (forall e l mainFile,
             In e kept -> primaryLocation e = Some l -> source l = Some mainFile ->
             Sample.resolve "/repo" mainFile = Sample.resolve "/repo" "src/a.js").
Proof.
  split; [reflexivity |]. split; [well_formed |].
  apply (collect_filter (platform := Sample.platform)
           (Sample.report Sample.threeErrors) Sample.threeErrors
           "/repo" "src/a.js" Sample.offset23);
    [reflexivity | well_formed].
Defined.

(** The offsets on the same report, shifted by two lines and thirty columns. *)
Lemma collect_offsets_witness :
  errors (Sample.report Sample.threeErrors) = Some Sample.threeErrors
  /\ Forall WellFormed Sample.threeErrors
  /\ exists kept outs,
       collectJson (platform := Sample.platform)
         (Some (JsonValue (Sample.report Sample.threeErrors)))
         "/repo" "src/a.js" Sample.offset23
       = Return (CollectOutput outs)
       /\ (forall e, In e kept
                     <-> In e Sample.threeErrors
                         /\ Kept (platform := Sample.platform) "/repo" "src/a.js" e)
       /\ Forall2 (fun e o => forall m rest l,
                     message e = m :: rest -> loc m = Some l ->
                     Shifted Sample.offset23 l o)
                  kept outs.
Proof.
  split; [reflexivity |]. split; [well_formed |].
  apply (collect_offsets (platform := Sample.platform)
           (Sample.report Sample.threeErrors) Sample.threeErrors
           "/repo" "src/a.js" Sample.offset23);
    [reflexivity | well_formed].
Defined.


(** C10 as worded fails: the operation's location names the target file and
    the first message has no location, but its description is empty, and
    [collect] drops the diagnostic. *)
Lemma operation_location_dropped :
  operation (Sample.operationOnly "")
  = Some (Sample.blame "call of f" (Some Sample.here))
  /\ source Sample.here = Some "src/a.js"
  /\ Sample.resolve "/repo" "src/a.js" = Sample.resolve "/repo" "src/a.js"
  /\ message (Sample.operationOnly "") = [Sample.blame "" None]
  /\ loc (Sample.blame "" None) = None
  /\ collectJson (platform := Sample.platform)
       (Some (JsonValue (Sample.report [Sample.operationOnly ""])))
       "/repo" "src/a.js" Sample.offset5
     = Return (CollectOutput []).
Proof. repeat split. Qed.

(** A diagnostic located by its operation only, with a description. *)
Lemma operation_location_only_witness :
  Forall WellFormed [Sample.operationOnly "Cannot call f"]
  /\ Sample.resolve "/repo" "src/a.js" = Sample.resolve "/repo" "src/a.js"
  /\ includes "inconsistent use of" "Cannot call f" = false
  /\ exists outs o,
       collectJson (platform := Sample.platform)
         (Some (JsonValue (Sample.report [Sample.operationOnly "Cannot call f"])))
         "/repo" "src/a.js" Sample.offset5
       = Return (CollectOutput outs)
       /\ In o outs
       /\ normalizeError (platform := Sample.platform)
            (Sample.report [Sample.operationOnly "Cannot call f"])
            "/repo" Sample.offset5 (Sample.operationOnly "Cannot call f")
          = Return o
       /\ out_loc o = defaultLoc Sample.offset5
       /\ out_start o = Some (1 + off_line Sample.offset5)
       /\ out_end o = Some (1 + off_line Sample.offset5)
       /\ forall op',
            normalizeError (platform := Sample.platform)
              (Sample.report [Sample.operationOnly "Cannot call f"])
              "/repo" Sample.offset5
              (withOperation (Sample.operationOnly "Cannot call f") op')
            = Return o.
Proof.
  split; [well_formed |]. split; [reflexivity |]. split; [reflexivity |].
  apply (operation_location_only (platform := Sample.platform)
           (Sample.report [Sample.operationOnly "Cannot call f"])
           [Sample.operationOnly "Cannot call f"]
           "/repo" "src/a.js" Sample.offset5
           (Sample.operationOnly "Cannot call f")
           (Sample.blame "call of f" (Some Sample.here))
           Sample.here "src/a.js"
           (Sample.blame "Cannot call f" None) []);
    first [ reflexivity | discriminate | well_formed | now left ].
Defined.

(** A description with three references: same line, another line, no extra. *)
Lemma formatMessage_references_witness :
  IsRef "[2]"
  /\ matchingExtra [Sample.note "/repo/src/a.js" "[1]" 1;
                    Sample.note "/repo/src/a.js" "[2]" 7] "[2]"
     = Some (Sample.note "/repo/src/a.js" "[2]" 7)
  /\ formatMessage (platform := Sample.platform)
       (withDescr (Sample.blame "" None) "string [1] is incompatible with number")
       (map Some [Sample.note "/repo/src/a.js" "[1]" 1;
                  Sample.note "/repo/src/a.js" "[2]" 7])
       "/repo" (Some "0.98.0") 2
     = Return "string is incompatible with number"
  /\ formatMessage (platform := Sample.platform)
       (withDescr (Sample.blame "" None)
          ("string [1] is incompatible with number" ++ " " ++ "[2]" ++ " [3]."))
       (map Some [Sample.note "/repo/src/a.js" "[1]" 1;
                  Sample.note "/repo/src/a.js" "[2]" 7])
       "/repo" (Some "0.98.0") 2
     = Return ("string is incompatible with number" ++ " (see line 9)" ++ " [3].").
Proof.
  pose proof (formatMessage_references (platform := Sample.platform)
                (Sample.blame "" None)
                [Sample.note "/repo/src/a.js" "[1]" 1;
                 Sample.note "/repo/src/a.js" "[2]" 7]
                "/repo" (Some "0.98.0") 2) as (_ & Happ & _ & _ & Hline).
  assert (IsRef "[2]") as Href.
  { exists "2". repeat split. discriminate. }
  split; [exact Href |]. split; [reflexivity |].
  destruct (Happ "string [1] is incompatible with number" "[2]" " [3]." Href)
    as (a & b & Ha & Hb & Hab).
  assert (a = "string is incompatible with number") as -> by
    (vm_compute in Ha; congruence).
  assert (b = " [3].") as -> by (vm_compute in Hb; congruence).
  split; [exact Ha |].
  rewrite Hab.
  rewrite (Hline "[2]" (Sample.note "/repo/src/a.js" "[2]" 7));
    [reflexivity | reflexivity | reflexivity | discriminate].
Defined.

(** The checker prints "not json". *)
Lemma collect_invalid_json_witness :
  "not json" <> ""
  /\ Sample.spawnSync [] (flowCall (platform := Sample.platform)
                            "check-contents" "not json" "/repo" "src/a.js")
     = Some "not json"
  /\ Sample.JSON_parse "not json" = None
  /\ fst (collect (platform := Sample.platform)
            "not json" "/repo" true "src/a.js" Sample.offset5 initialState)
     = Return (CollectOutput [fatalRecord "Flow returned invalid json"]).
Proof.
  split; [discriminate |]. split; [reflexivity |]. split; [reflexivity |].
  apply (collect_invalid_json (platform := Sample.platform)
           "not json" "/repo" true "src/a.js" Sample.offset5 initialState
           "not json");
    first [ reflexivity | discriminate ].
Defined.

(** The checker prints "null". *)
Lemma collect_null_json_raises_witness :
  "null" <> ""
  /\ Sample.spawnSync [] (flowCall (platform := Sample.platform)
                            "check-contents" "null" "/repo" "src/a.js")
     = Some "null"
  /\ Sample.JSON_parse "null" = Some JsonNull
  /\ fst (collect (platform := Sample.platform)
            "null" "/repo" false "src/a.js" Sample.offset5 initialState)
     = Throw.
Proof.
  split; [discriminate |]. split; [reflexivity |]. split; [reflexivity |].
  apply (collect_null_json_raises (platform := Sample.platform)
           "null" "/repo" false "src/a.js" Sample.offset5 initialState "null");
    first [ reflexivity | discriminate ].
Defined.

(** The checker prints "{}". *)
Lemma coverage_missing_expressions_raises_witness :
  "{}" <> ""
  /\ Sample.spawnSync [] (flowCall (platform := Sample.platform)
                            "coverage" "{}" "/repo" "src/a.js")
     = Some "{}"
  /\ Sample.JSON_parse "{}" = Some (JsonValue Sample.noFields)
  /\ expressions Sample.noFields = None
  /\ fst (coverage (platform := Sample.platform)
            "{}" "/repo" false "src/a.js" initialState)
     = Throw.
Proof.
  split; [discriminate |]. split; [reflexivity |]. split; [reflexivity |].
  split; [reflexivity |].
  apply (coverage_missing_expressions_raises (platform := Sample.platform)
           "{}" "/repo" false "src/a.js" initialState "{}" Sample.noFields);
    first [ reflexivity | discriminate ].
Defined.

(** Empty input, and a checker without stdout. *)
Lemma sentinels_witness :
  "crash" <> ""
  /\ NoStdout (Sample.spawnSync [] (flowCall (platform := Sample.platform)
                                      "check-contents" "crash" "/repo" "src/a.js"))
  /\ NoStdout (Sample.spawnSync [] (flowCall (platform := Sample.platform)
                                      "coverage" "crash" "/repo" "src/a.js"))
  /\ collect (platform := Sample.platform)
       "" "/repo" true "src/a.js" Sample.offset5 initialState
     = (Return (CollectSentinel true), initialState)
  /\ coverage (platform := Sample.platform) "" "/repo" true "src/a.js" initialState
     = (Return (CoverageSentinel true), initialState)
  /\ fst (collect (platform := Sample.platform)
            "crash" "/repo" true "src/a.js" Sample.offset5 initialState)
     = Return (CollectSentinel false)
  /\ fst (coverage (platform := Sample.platform)
            "crash" "/repo" true "src/a.js" initialState)
     = Return (CoverageSentinel false).
Proof.
  pose proof (sentinels (platform := Sample.platform)
                "crash" "/repo" true "src/a.js" Sample.offset5 initialState)
    as (Hc & Hv & Hcf & Hvf & _ & _).
  assert ("crash" <> "") as Hne by discriminate.
  assert (NoStdout (Sample.spawnSync [] (flowCall (platform := Sample.platform)
                      "check-contents" "crash" "/repo" "src/a.js"))) as H1
    by (left; reflexivity).
  assert (NoStdout (Sample.spawnSync [] (flowCall (platform := Sample.platform)
                      "coverage" "crash" "/repo" "src/a.js"))) as H2
    by (left; reflexivity).
  split; [exact Hne |]. split; [exact H1 |]. split; [exact H2 |].
  split; [exact Hc |]. split; [exact Hv |].
  split; [exact (Hcf Hne H1) | exact (Hvf Hne H2)].
Defined.

(** C9 as worded fails: both calls ask for the stop on exit and both get
    stdout, the second for another root; one hook is registered, for the
    first root, and on exit nothing stops the server of the second. *)
Lemma second_root_gets_no_hook :
  Forall (fun i => inv_stopOnExit i = true) Sample.twoRoots
  /\ In (CallCoverage "{expressions}" "/other" true "lib/b.js") Sample.twoRoots
  /\ exitListeners (runAll (platform := Sample.platform)
                      Sample.twoRoots initialState)
     = ["/repo"]
  /\ ~ In "/other"
       (exitListeners (runAll (platform := Sample.platform)
                         Sample.twoRoots initialState))
  /\ ~ In (stopCall (platform := Sample.platform) "/other")
       (spawned (processExit (platform := Sample.platform)
                   (runAll (platform := Sample.platform)
                      Sample.twoRoots initialState))).
Proof.
  split; [repeat constructor |]. split; [right; now left |].
  split; [reflexivity |]. split.
  - vm_compute. intros [H | []]. discriminate.
  - vm_compute. intros [H | [H | [H | []]]]; discriminate.
Qed.

(** Two calls with two roots, then a third call. *)
Lemma exit_hook_once_witness :
  reachesOnExit (platform := Sample.platform) initialState
    (CallCollect "{errors:[]}" "/repo" true "src/a.js" Sample.offset5) = true
  /\ exitListeners (runAll (platform := Sample.platform)
                      Sample.twoRoots initialState)
     = ["/repo"]
  /\ didExecute (runAll (platform := Sample.platform)
                   Sample.twoRoots initialState) = true
  /\ exitListeners
       (invoke (platform := Sample.platform) initialState
          (CallCollect "{errors:[]}" "/repo" true "src/a.js" Sample.offset5))
     = ["/repo"]
  /\ exitListeners
       (invoke (platform := Sample.platform)
          (runAll (platform := Sample.platform) Sample.twoRoots initialState)
          (CallCoverage "{expressions}" "/third" true "c.js"))
     = ["/repo"].
Proof.
  pose proof (exit_hook_once (platform := Sample.platform) Sample.twoRoots)
    as (Hl & Hd & _ & Hreach & Hset & _).
  assert (reachesOnExit (platform := Sample.platform) initialState
            (CallCollect "{errors:[]}" "/repo" true "src/a.js" Sample.offset5)
          = true) as Hr by reflexivity.
  split; [exact Hr |].
  split; [rewrite Hl; reflexivity |].
  assert (didExecute (runAll (platform := Sample.platform)
                        Sample.twoRoots initialState) = true) as Hflag.
  { apply Hd. discriminate. }
  split; [exact Hflag |].
  split.
  - destruct (Hreach _ _ Hr) as [_ Hadd]. rewrite (Hadd eq_refl). reflexivity.
  - destruct (Hset _ (CallCoverage "{expressions}" "/third" true "c.js") Hflag)
      as [_ Hsame].
    rewrite Hsame, Hl. reflexivity.
Defined.

(** * Further properties of the module *)

(** ** References to other files *)

Lemma removeFirst_unfold (pat s : string) :
  removeFirst pat s
  = if startsWith pat s then drop (String.length pat) s
    else match s with
         | EmptyString => EmptyString
         | String c s' => String c (removeFirst pat s')
         end.
Proof. destruct s; reflexivity. Qed.

Lemma removeFirst_prefix (pat rest : string) :
  removeFirst pat (pat ++ rest) = rest.
Proof.
  rewrite removeFirst_unfold.
  rewrite (proj2 (startsWith_spec pat (pat ++ rest))) by now exists rest.
  apply drop_append.
Qed.

Lemma removeFirst_absent (pat s : string) :
  includes pat s = false -> removeFirst pat s = s.
Proof.
  induction s as [|c s IH]; intros H; rewrite removeFirst_unfold;
    cbn [includes] in H; apply orb_false_iff in H as [Hs Hi]; rewrite Hs.
  - reflexivity.
  - now rewrite (IH Hi).
Qed.

(** What is cut out is the first occurrence: no occurrence of [pat] starts
    before it. *)
Lemma removeFirst_present (pat s : string) :
  includes pat s = true ->
  exists pre post,
    s = pre ++ pat ++ post
    /\ removeFirst pat s = pre ++ post
    /\ forall pre' post',
         s = pre' ++ pat ++ post' ->
         (String.length pre <= String.length pre')%nat.
Proof.
  induction s as [|c s IH]; intros H; rewrite removeFirst_unfold;
    destruct (startsWith pat _) eqn:Hs.
  - destruct pat; [|discriminate]. exists "", "".
    repeat split. intros. apply Nat.le_0_l.
  - cbn [includes] in H. rewrite Hs in H. discriminate.
  - apply startsWith_spec in Hs as [t Ht]. exists "", t.
    split; [exact Ht |]. split; [rewrite Ht; apply drop_append |].
    intros. apply Nat.le_0_l.
  - cbn [includes] in H. rewrite Hs in H. simpl in H.
    destruct (IH H) as (pre & post & Hpre & Hrem & Hmin).
    exists (String c pre), post.
    split; [simpl; now rewrite <- Hpre |].
    split; [simpl; now rewrite Hrem |].
    intros pre' post' Heq. destruct pre' as [|c' pre'].
    + exfalso. simpl in Heq.
      assert (startsWith pat (String c s) = true) as Hyes
        by (apply startsWith_spec; now exists post').
      rewrite Hyes in Hs. discriminate.
    + simpl in Heq. injection Heq as _ Heq. simpl.
      apply le_n_S. exact (Hmin pre' post' Heq).
Qed.

Section References.
Context {platform : Platform}.

(** X1.  A reference whose first matching extra lies on another path than
    the message is replaced by " (see R)": R is the URL of the line in Flow's
    library sources, at the version of the report, when the extra's location
    is a library file, and otherwise a dot, the extra's path without the
    first occurrence of the root, with forward slashes, a colon and the
    extra's line.  The line offset is not added to that line. *)
Theorem formatMessage_other_file (msg : FlowMessage) (extras : list FlowMessage)
    (root : string) (version : option string) (lineOffset : Z)
    (pre tok post : string) (e : FlowMessage) :
  IsRef tok ->
  matchingExtra extras tok = Some e ->
  path e <> path msg ->
  exists a b,
    formatMessage (withDescr msg pre) (map Some extras) root version lineOffset
    = Return a
    /\ formatMessage (withDescr msg post) (map Some extras) root version lineOffset
       = Return b
    /\ formatMessage (withDescr msg (pre ++ " " ++ tok ++ post))
                     (map Some extras) root version lineOffset
       = Return (a ++ (" (see "
                       ++ (if isLibFile (loc e)
                           then "https://github.com/facebook/flow/blob/v"
                                ++ orUndefined version ++ "/lib/"
                                ++ basename (path e) ++ "#L"
                                ++ ofNumber (msg_line e)
                           else "." ++ slash (removeFirst root (path e)) ++ ":"
                                ++ ofNumber (msg_line e))
                       ++ ")") ++ b).
Proof.
  intros Htok He Hp. unfold formatMessage. simpl.
  destruct (formatDescr_total root (withDescr msg pre) extras version
              lineOffset pre) as [a Ha].
  destruct (formatDescr_total root (withDescr msg post) extras version
              lineOffset post) as [b Hb].
  exists a, b. split; [exact Ha |]. split; [exact Hb |].
  assert (replacement msg extras root version lineOffset tok
          = " (see " ++ formatSeePath e root version ++ ")") as Hr.
  { unfold replacement. rewrite He.
    apply String.eqb_neq in Hp. now rewrite Hp. }
  unfold formatDescr in *.
  transitivity
    (Return (a ++ replacement msg extras root version lineOffset tok ++ b)).
  - exact (replaceRefs_append _ tok post
             (replacement msg extras root version lineOffset tok) b Htok
             (replacer_defined (withDescr msg (pre ++ " " ++ tok ++ post))
                extras root version lineOffset tok)
             Hb pre O a (Nat.le_0_l _) Ha).
  - rewrite Hr. reflexivity.
Qed.

(** X2.  The reference to an extra outside Flow's library: when the extra's
    path starts with the root, it is "." followed by the rest of the path;
    when the root does not occur in the path, it is "." followed by the whole
    path; and when the root occurs anywhere in the path, its first occurrence
    is what is cut out, wherever it is: the path is [pre], the root and
    [post], no occurrence of the root starts before the end of [pre], and the
    reference shows [pre] and [post]. *)
Theorem formatSeePath_relative (msg : FlowMessage) (root : string)
    (version : option string) :
  isLibFile (loc msg) = false ->
  (forall rest,
      path msg = root ++ rest ->
      formatSeePath msg root version
      = "." ++ slash rest ++ ":" ++ ofNumber (msg_line msg))
  /\ (includes root (path msg) = false ->
      formatSeePath msg root version
      = "." ++ slash (path msg) ++ ":" ++ ofNumber (msg_line msg))
  /\ (includes root (path msg) = true ->
      exists pre post,
        path msg = pre ++ root ++ post
        /\ (forall pre' post',
              path msg = pre' ++ root ++ post' ->
              (String.length pre <= String.length pre')%nat)
        /\ formatSeePath msg root version
           = "." ++ slash (pre ++ post) ++ ":" ++ ofNumber (msg_line msg)).
Proof.
  intros Hlib. unfold formatSeePath. rewrite Hlib. repeat split.
  - intros rest ->. now rewrite removeFirst_prefix.
  - intros H. now rewrite (removeFirst_absent _ _ H).
  - intros H.
    destruct (removeFirst_present _ _ H) as (pre & post & Hp & Hr & Hmin).
    exists pre, post. split; [exact Hp |]. split; [exact Hmin |].
    now rewrite Hr.
Qed.

End References.

(** ** The records of [collect] *)

Lemma levelOrError_truthy (l : option string) : levelOrError l <> "".
Proof.
  unfold levelOrError. destruct l as [s|]; [|discriminate].
  destruct (truthy s) eqn:Hs; [now apply truthy_true | discriminate].
Qed.

Lemma shiftPos_zero (p : FlowPos) :
  shiftPos {| off_line := 0; off_column := 0 |} p
  = {| pos_line := line p; pos_column := column p; pos_offset := Some (offset p) |}.
Proof.
  unfold shiftPos. simpl. rewrite !Z.add_0_r. now destruct (Z.eqb (line p) 0).
Qed.

Section Records.
Context {platform : Platform}.

Lemma normalizeError_message (json : Envelope) (root : string)
    (programOffset : ProgramOffset) (e : FlowError) (m : FlowMessage)
    (rest : list FlowMessage) (o : CollectOutputElement) :
  message e = m :: rest ->
  normalizeError json root programOffset e = Return o ->
  extra e = None \/ extra e = Some [] \/ RefFree (descr m) ->
  out_message o = descr m.
Proof.
  intros Hm Ho Hcase. unfold normalizeError in Ho. rewrite Hm in Ho.
  assert (match extra e with
          | Some (x :: xs) =>
              formatMessage m (map (fun extraObj => hd_error (extra_message extraObj))
                                   (x :: xs))
                root (flowVersion json) (off_line programOffset)
          | _ => Return (descr m)
          end = Return (descr m)) as Hmsg.
  { destruct (extra e) as [[|x xs]|]; try reflexivity.
    destruct Hcase as [H | [H | H]]; try discriminate.
    unfold formatMessage, formatDescr. now apply replaceRefs_RefFree. }
  rewrite Hmsg in Ho. simpl in Ho.
  destruct (locOrDefault (loc m)). injection Ho as <-. reflexivity.
Qed.

(** X3.  The records of [collect] follow the report: there is a yes/no
    answer of the filter for each diagnostic, and the output is made, one
    record for one diagnostic and in the order of the report, of the
    diagnostics with the answer yes.  There are never more records than
    diagnostics. *)
Theorem collect_order (json : Envelope) (errs : list FlowError)
    (root filepath : string) (programOffset : ProgramOffset) :
  errors json = Some errs ->
  Forall WellFormed errs ->
  exists keep outs,
    (forall e, In e errs ->
               keepError root (resolve root filepath) e = Return (keep e))
    /\ collectJson (Some (JsonValue json)) root filepath programOffset
       = Return (CollectOutput outs)
    /\ Forall2 (fun e o => normalizeError json root programOffset e = Return o)
               (filter keep errs) outs
    /\ (length outs <= length errs)%nat.
Proof.
  intros Herrs Hwf.
  set (keep := fun e => match keepError root (resolve root filepath) e with
                        | Return b => b
                        | Throw => false
                        end).
  assert (forall e, In e errs ->
                    keepError root (resolve root filepath) e = Return (keep e))
    as Hkeep.
  { intros e He. rewrite Forall_forall in Hwf. destruct (Hwf e He) as [Hm _].
    destruct (keepError_total root filepath e Hm) as [b Hb].
    unfold keep. now rewrite Hb. }
  destruct (mapM_total (normalizeError json root programOffset) (filter keep errs))
    as [outs Houts].
  { apply Forall_forall. intros e He. apply filter_In in He as [He _].
    apply normalizeError_total. rewrite Forall_forall in Hwf. now apply Hwf. }
  exists keep, outs. split; [exact Hkeep |].
  assert (Forall2 (fun e o => normalizeError json root programOffset e = Return o)
                  (filter keep errs) outs) as Hall by now apply mapM_Forall2.
  split; [|split; [exact Hall |]].
  - unfold collectJson. rewrite Herrs.
    rewrite (filterM_pure _ keep errs) by now apply Forall_forall.
    simpl. rewrite Houts. reflexivity.
  - rewrite <- (Forall2_length Hall). apply filter_length_le.
Qed.

(** X4.  Every record made from a diagnostic carries the path of the first
    message as it is; its [start] and [end] are the lines of its [loc]; its
    level is never empty: it is the level of the diagnostic when
    that is a non-empty string and "error" otherwise; its type is one of
    "missing-annotation" and "default". *)
Theorem collect_records (json : Envelope) (errs : list FlowError)
    (root filepath : string) (programOffset : ProgramOffset) :
  errors json = Some errs ->
  Forall WellFormed errs ->
  exists kept outs,
    collectJson (Some (JsonValue json)) root filepath programOffset
    = Return (CollectOutput outs)
    /\ (forall e, In e kept <-> In e errs /\ Kept root filepath e)
    /\ Forall2 (fun e o => forall m rest,
                  message e = m :: rest ->
                  out_path o = Some (path m)
                  /\ out_start o = Some (pos_line (loc_start (out_loc o)))
                  /\ out_end o = Some (pos_line (loc_end (out_loc o)))
                  /\ out_level o <> ""
                  /\ (forall s, level e = Some s -> s <> "" -> out_level o = s)
                  /\ (level e = None \/ level e = Some "" -> out_level o = "error")
                  /\ (out_type o = Some "missing-annotation"
                      \/ out_type o = Some "default"))
               kept outs.
Proof.
  intros Herrs Hwf.
  destruct (collectJson_shape json root programOffset errs filepath Herrs Hwf)
    as (kept & outs & Hres & Hin & Hall).
  exists kept, outs. split; [exact Hres |]. split; [exact Hin |].
  eapply Forall2_impl; [|exact Hall]. cbv beta.
  intros e o Ho m rest Hm.
  destruct (normalizeError_fields json root programOffset e m rest o Hm Ho)
    as (Htype & Hlevel & Hpath & Hloc & Hstart & Hend).
  rewrite Hloc, Hstart, Hend, Hlevel, Htype. cbn [loc_start loc_end].
  rewrite !shiftPos_line.
  split; [exact Hpath |]. split; [reflexivity |]. split; [reflexivity |].
  split; [apply levelOrError_truthy |].
  split; [|split].
  - intros s Hs Hne. unfold levelOrError. rewrite Hs.
    now rewrite (proj2 (truthy_true s) Hne).
  - intros [Hs | Hs]; unfold levelOrError; now rewrite Hs.
  - unfold determineRuleType.
    destruct (includes _ _); [now left | now right].
Qed.

(** X5.  The message of a record is the description of the first message,
    character for character, whenever the diagnostic has no extras, or an
    empty list of extras, whatever references the description has, and
    whenever the description has no reference. *)
Theorem collect_message_verbatim (json : Envelope) (errs : list FlowError)
    (root filepath : string) (programOffset : ProgramOffset) :
  errors json = Some errs ->
  Forall WellFormed errs ->
  exists kept outs,
    collectJson (Some (JsonValue json)) root filepath programOffset
    = Return (CollectOutput outs)
    /\ (forall e, In e kept <-> In e errs /\ Kept root filepath e)
    /\ Forall2 (fun e o => forall m rest,
                  message e = m :: rest ->
                  extra e = None \/ extra e = Some [] \/ RefFree (descr m) ->
                  out_message o = descr m)
               kept outs.
Proof.
  intros Herrs Hwf.
  destruct (collectJson_shape json root programOffset errs filepath Herrs Hwf)
    as (kept & outs & Hres & Hin & Hall).
  exists kept, outs. split; [exact Hres |]. split; [exact Hin |].
  eapply Forall2_impl; [|exact Hall]. cbv beta.
  intros e o Ho m rest Hm Hcase.
  exact (normalizeError_message json root programOffset e m rest o Hm Ho Hcase).
Qed.

(** X6.  With the offset of line 0 and column 0 the location of a record is
    the raw location of the first message: lines, columns and offsets of
    start and end are carried over as they are. *)
Theorem collect_zero_offset (json : Envelope) (errs : list FlowError)
    (root filepath : string) :
  errors json = Some errs ->
  Forall WellFormed errs ->
  exists kept outs,
    collectJson (Some (JsonValue json)) root filepath
                {| off_line := 0; off_column := 0 |}
    = Return (CollectOutput outs)
    /\ (forall e, In e kept <-> In e errs /\ Kept root filepath e)
    /\ Forall2 (fun e o => forall m rest l,
                  message e = m :: rest -> loc m = Some l ->
                  out_loc o
                  = {| loc_start := {| pos_line := line (start l);
                                       pos_column := column (start l);
                                       pos_offset := Some (offset (start l)) |};
                       loc_end := {| pos_line := line (end_ l);
                                     pos_column := column (end_ l);
                                     pos_offset := Some (offset (end_ l)) |} |}
                  /\ out_start o = Some (line (start l))
                  /\ out_end o = Some (line (end_ l)))
               kept outs.
Proof.
  intros Herrs Hwf.
  destruct (collectJson_shape json root {| off_line := 0; off_column := 0 |}
              errs filepath Herrs Hwf)
    as (kept & outs & Hres & Hin & Hall).
  exists kept, outs. split; [exact Hres |]. split; [exact Hin |].
  eapply Forall2_impl; [|exact Hall]. cbv beta.
  intros e o Ho m rest l Hm Hl.
  destruct (normalizeError_fields json root _ e m rest o Hm Ho)
    as (_ & _ & _ & Hloc & Hstart & Hend).
  rewrite Hl in Hloc, Hstart, Hend.
  cbn [locOrDefault fst snd off_line] in Hloc, Hstart, Hend.
  rewrite !shiftPos_zero in Hloc. rewrite Z.add_0_r in Hstart, Hend.
  auto.
Qed.

End Records.

(** ** Diagnostics and extras without messages *)

Lemma filterM_raises {A} (f : A -> completion bool) (xs : list A) (x : A) :
  In x xs -> f x = Throw -> filterM f xs = Throw.
Proof.
  induction xs as [|y ys IH]; simpl; [tauto |].
  intros [-> | Hx] Hf.
  - now rewrite Hf.
  - destruct (f y); [|reflexivity]. simpl. now rewrite (IH Hx Hf).
Qed.

Lemma filterM_skip {A} (f : A -> completion bool) (pre post : list A) (x : A) :
  f x = Return false ->
  filterM f (pre ++ x :: post) = filterM f (pre ++ post).
Proof.
  intros Hf. induction pre as [|y ys IH]; simpl.
  - rewrite Hf. simpl. now destruct (filterM f post).
  - now rewrite IH.
Qed.

Section Replace_raises.
Variable f : string -> string -> completion string.

Lemma replaceRefs_append_raises (tok post : string) :
  IsRef tok ->
  f (" " ++ tok) tok = Throw ->
  forall pre k a,
    (k <= String.length pre)%nat ->
    replaceRefs f k pre = Return a ->
    replaceRefs f k (pre ++ " " ++ tok ++ post) = Throw.
Proof.
  intros Htok Hr. induction pre as [|c pre IH]; intros k a Hk Ha.
  - assert (k = O) as -> by (simpl in Hk; lia).
    change ("" ++ " " ++ tok ++ post) with (String " " (tok ++ post)).
    cbn [replaceRefs].
    change (String " " (tok ++ post)) with (" " ++ tok ++ post).
    now rewrite (matchRef_ref tok post Htok), Hr.
  - change (String c pre ++ " " ++ tok ++ post)
      with (String c (pre ++ " " ++ tok ++ post)).
    cbn [replaceRefs] in Ha |- *.
    destruct k as [|k].
    + change (String c (pre ++ " " ++ tok ++ post))
        with (String c pre ++ String " " (tok ++ post)).
      rewrite matchRef_append by discriminate.
      destruct (matchRef (String c pre)) as [g|] eqn:Hm.
      * destruct (f (" " ++ g) g) as [rg|]; [|discriminate]. simpl in Ha |- *.
        destruct (replaceRefs f (String.length g) pre) as [t|] eqn:Ht;
          [|discriminate].
        apply matchRef_inv in Hm as [_ [rest Hrest]].
        assert (String.length g <= String.length pre)%nat as Hlen.
        { simpl in Hrest. injection Hrest as _ ->.
          rewrite length_append. lia. }
        change (String " " (tok ++ post)) with (" " ++ tok ++ post).
        now rewrite (IH _ _ Hlen Ht).
      * destruct (replaceRefs f O pre) as [t|] eqn:Ht; [|discriminate].
        change (String " " (tok ++ post)) with (" " ++ tok ++ post).
        now rewrite (IH _ _ (Nat.le_0_l _) Ht).
    + simpl in Hk. apply (IH k a); [lia | exact Ha].
Qed.

End Replace_raises.

Section Missing.
Context {platform : Platform}.

Lemma findExtra_before (before : list FlowMessage)
    (rest : list (option FlowMessage)) (tok : string) :
  findExtra (map Some before ++ rest) tok
  = match matchingExtra before tok with
    | Some e => Return (Some e)
    | None => findExtra rest tok
    end.
Proof.
  unfold matchingExtra. induction before as [|e es IH]; simpl; [reflexivity |].
  destruct (String.eqb (descr e) tok); [reflexivity | exact IH].
Qed.

(** X7.  A diagnostic with an empty [message] array is passed over in
    silence when its operation has a location whose source is null or empty:
    the filter answers no, as if the diagnostic were not in the report.  In
    every other case the filter raises on it, and [collect] raises with it,
    whatever else the report holds. *)
Theorem collect_without_messages (json : Envelope) (errs : list FlowError)
    (root filepath : string) (programOffset : ProgramOffset) (e : FlowError) :
  message e = [] ->
  ((exists op l, operation e = Some op /\ loc op = Some l
                 /\ (source l = None \/ source l = Some "")) ->
   forall pre post,
     filterM (keepError root (resolve root filepath)) (pre ++ e :: post)
     = filterM (keepError root (resolve root filepath)) (pre ++ post))
  /\ (~ (exists op l, operation e = Some op /\ loc op = Some l
                      /\ (source l = None \/ source l = Some "")) ->
      errors json = Some errs -> In e errs ->
      collectJson (Some (JsonValue json)) root filepath programOffset = Throw).
Proof.
  intros Hm. split.
  - intros (op & l & Hop & Hl & Hs) pre post. apply filterM_skip.
    unfold keepError, mainLocOfError. rewrite Hop, Hl. simpl.
    destruct Hs as [-> | ->]; reflexivity.
  - intros Hno Herrs He.
    assert (keepError root (resolve root filepath) e = Throw) as Hk.
    { unfold keepError, mainLocOfError. rewrite Hm.
      destruct (operation e) as [op|] eqn:Hop; [|reflexivity].
      destruct (loc op) as [l|] eqn:Hl; [|reflexivity]. simpl.
      destruct (source l) as [s|] eqn:Hs.
      - destruct s; [|reflexivity].
        exfalso. apply Hno. exists op, l. auto.
      - exfalso. apply Hno. exists op, l. auto. }
    unfold collectJson. rewrite Herrs.
    now rewrite (filterM_raises _ errs e He Hk).
Qed.

(** X8.  An extra with an empty [message] array leaves a hole in the list
    the formatter searches.  The search for a reference stops at the first
    extra with that description: a hole behind it does no harm, a hole before
    it makes the formatter raise.  A description without references never
    looks at the extras, holes or not. *)
Theorem formatMessage_hole (msg : FlowMessage) (before : list FlowMessage)
    (rest : list (option FlowMessage)) (root : string)
    (version : option string) (lineOffset : Z) (pre tok post : string) :
  IsRef tok ->
  RefFree pre ->
  (matchingExtra before tok = None ->
   formatMessage (withDescr msg (pre ++ " " ++ tok ++ post))
                 (map Some before ++ None :: rest) root version lineOffset
   = Throw)
  /\ (matchingExtra before tok <> None ->
      RefFree post ->
      formatMessage (withDescr msg (pre ++ " " ++ tok ++ post))
                    (map Some before ++ None :: rest) root version lineOffset
      = Return (pre ++ replacement msg before root version lineOffset tok ++ post))
  /\ (forall extras,
        formatMessage (withDescr msg pre) extras root version lineOffset
        = Return pre).
Proof.
  intros Htok Hpre. unfold formatMessage, formatDescr. cbn [descr withDescr].
  split; [|split].
  - intros Hnone.
    apply (replaceRefs_append_raises _ tok post Htok) with (a := pre).
    + unfold replacer. rewrite findExtra_before, Hnone. reflexivity.
    + apply Nat.le_0_l.
    + now apply replaceRefs_RefFree.
  - intros Hsome Hpost.
    apply (replaceRefs_append _ tok post
             (replacement msg before root version lineOffset tok) post Htok).
    + unfold replacer, replacement. rewrite findExtra_before.
      destruct (matchingExtra before tok) as [e|]; [|contradiction]. simpl.
      destruct (String.eqb (path e) (path msg)); simpl; [|reflexivity].
      destruct (Z.eqb (msg_line e) (msg_line msg)); reflexivity.
    + now apply replaceRefs_RefFree.
    + apply Nat.le_0_l.
    + now apply replaceRefs_RefFree.
  - intros extras. now apply replaceRefs_RefFree.
Qed.

End Missing.

(** ** The processes a run spawns *)

Section Trace.
Context {platform : Platform}.

Lemma invoke_spawned (st : ProcessState) (i : Invocation) :
  spawned (invoke st i)
  = (spawned st
     ++ if truthy (inv_stdin i)
        then [flowCall (inv_mode i) (inv_stdin i) (inv_root i) (inv_filepath i)]
        else [])%list.
Proof.
  rewrite invoke_spawnFlow. unfold spawnFlow.
  destruct (truthy (inv_stdin i)); simpl; [|now rewrite app_nil_r].
  destruct (spawnSync (spawned st) _) as [out|]; [|reflexivity].
  destruct (truthy out); simpl; [|reflexivity].
  destruct (inv_stopOnExit i); [|reflexivity].
  unfold onExit. now destruct (negb _).
Qed.

Lemma runAll_spawned (calls : list Invocation) (st : ProcessState) :
  spawned (runAll calls st)
  = (spawned st
     ++ map (fun i => flowCall (inv_mode i) (inv_stdin i) (inv_root i)
                               (inv_filepath i))
            (filter (fun i => truthy (inv_stdin i)) calls))%list.
Proof.
  revert st; induction calls as [|i calls IH]; intros st.
  - unfold runAll. simpl. now rewrite app_nil_r.
  - change (runAll (i :: calls) st) with (runAll calls (invoke st i)).
    rewrite IH, invoke_spawned. cbn [filter].
    destruct (truthy (inv_stdin i)); simpl.
    + now rewrite <- app_assoc.
    + now rewrite app_nil_r.
Qed.

Lemma firstReaching_stop (calls : list Invocation) (st : ProcessState) (r : string) :
  firstReaching calls st = Some r ->
  exists i, In i calls /\ inv_stopOnExit i = true /\ inv_stdin i <> ""
            /\ inv_root i = r.
Proof.
  revert st; induction calls as [|i calls IH]; intros st; simpl; [discriminate |].
  destruct (reachesOnExit st i) eqn:Hr.
  - intros H. injection H as <-. exists i. unfold reachesOnExit in Hr.
    apply andb_true_iff in Hr as [Hr _]. apply andb_true_iff in Hr as [Hs Hi].
    apply truthy_true in Hi. auto.
  - intros H. destruct (IH _ H) as (j & Hj & Hrest). exists j. auto.
Qed.

(** X9.  The processes spawned over the life of a process that starts
    fresh, makes [calls] and exits are: one checker run for each call with
    non-empty input, in the order of the calls, with the arguments mode,
    "--json", "--root=" and the root, and the file path, and the input on
    stdin; then at most one run with "stop", for the root of the first call
    that registered the hook.  All of them run the same binary. *)
Theorem process_trace (calls : list Invocation) :
  spawned (processExit (runAll calls initialState))
  = (map (fun i => {| spawn_bin := getFlowBin;
                      spawn_args := [inv_mode i; "--json";
                                     ("--root=" ++ inv_root i)%string;
                                     inv_filepath i];
                      spawn_input := Some (inv_stdin i) |})
         (filter (fun i => negb (String.eqb (inv_stdin i) "")) calls)
     ++ match firstReaching calls initialState with
        | Some r => [ {| spawn_bin := getFlowBin;
                         spawn_args := ["stop"; r];
                         spawn_input := None |} ]
        | None => []
        end)%list
  /\ Forall (fun call => spawn_bin call = getFlowBin)
            (spawned (processExit (runAll calls initialState))).
Proof.
  assert (spawned (processExit (runAll calls initialState))
          = (map (fun i => flowCall (inv_mode i) (inv_stdin i) (inv_root i)
                                    (inv_filepath i))
                 (filter (fun i => truthy (inv_stdin i)) calls)
             ++ map stopCall
                  match firstReaching calls initialState with
                  | Some r => [r]
                  | None => []
                  end)%list) as Htrace.
  { unfold processExit. cbn [spawned].
    rewrite runAll_spawned.
    destruct (runAll_flag calls initialState) as [_ Hl]. simpl in Hl.
    now rewrite Hl. }
  split.
  - rewrite Htrace. f_equal.
    + f_equal. apply filter_ext. intros i. now destruct (inv_stdin i).
    + now destruct (firstReaching calls initialState).
  - rewrite Htrace. apply Forall_app. split.
    + apply Forall_map. apply Forall_forall. reflexivity.
    + apply Forall_map. apply Forall_forall. reflexivity.
Qed.

(** X10.  A hook is registered only by a call that asks for it: when no
    call of a run has [stopOnExit] set, the flag stays unset, no listener is
    registered, and the exit spawns nothing. *)
Theorem no_stop_requested (calls : list Invocation) :
  Forall (fun i => inv_stopOnExit i = false) calls ->
  didExecute (runAll calls initialState) = false
  /\ exitListeners (runAll calls initialState) = []
  /\ spawned (processExit (runAll calls initialState))
     = spawned (runAll calls initialState).
Proof.
  intros Hno.
  assert (firstReaching calls initialState = None) as Hnone.
  { destruct (firstReaching calls initialState) as [r|] eqn:Hr; [|reflexivity].
    destruct (firstReaching_stop _ _ _ Hr) as (i & Hi & Hstop & _).
    rewrite Forall_forall in Hno. rewrite (Hno i Hi) in Hstop. discriminate. }
  destruct (runAll_flag calls initialState) as [Hd Hl].
  rewrite Hnone in Hd, Hl. simpl in Hd, Hl.
  split; [exact Hd |]. split; [exact Hl |].
  unfold processExit. cbn [spawned]. rewrite Hl. simpl. apply app_nil_r.
Qed.

(** X11.  Loading the module: with a non-empty FLOW_BIN the package
    flow-bin is not looked at, loading cannot fail, and the checker is the
    binary FLOW_BIN names.  Loading ends the process, with status 1, exactly
    when FLOW_BIN is unset or empty and flow-bin cannot be required.  After
    a load that did not end the process [getFlowBin] is never undefined. *)
Theorem loadModule_bin (required : option string) :
  (forall s, env_FLOW_BIN = Some s -> s <> "" ->
             loadModule required = Loaded None /\ getFlowBin = Some s)
  /\ (forall status,
        loadModule required = Exited status
        <-> status = 1
            /\ (env_FLOW_BIN = None \/ env_FLOW_BIN = Some "")
            /\ required = None)
  /\ (forall bin,
        loadModule required = Loaded bin -> flowBin = bin -> getFlowBin <> None).
Proof.
  unfold loadModule, getFlowBin. split; [|split].
  - intros s Hs Hne. rewrite Hs. now rewrite (proj2 (truthy_true s) Hne).
  - intros status. destruct env_FLOW_BIN as [s|].
    + destruct s as [|c s]; simpl.
      * destruct required; split; try discriminate.
        -- intros (_ & _ & H). discriminate.
        -- intros H. injection H as <-. auto.
        -- intros (-> & _ & _). reflexivity.
      * split; [discriminate |]. intros (_ & [H | H] & _); discriminate.
    + destruct required; split; try discriminate.
      * intros (_ & _ & H). discriminate.
      * intros H. injection H as <-. auto.
      * intros (-> & _ & _). reflexivity.
  - intros bin Hload Hbin. rewrite Hbin.
    destruct env_FLOW_BIN as [s|].
    + destruct (truthy s); [discriminate |].
      destruct required; [|discriminate]. injection Hload as <-. discriminate.
    + destruct required; [|discriminate]. injection Hload as <-. discriminate.
Qed.

End Trace.

(** * The further properties on concrete reports *)

Lemma hasRef_RefFree (s : string) : hasRef s = false -> RefFree s.
Proof.
  intros H pre tok post Htok ->. revert H.
  induction pre as [|c pre IH].
  - change ("" ++ " " ++ tok ++ post) with (" " ++ tok ++ post).
    change (" " ++ tok ++ post) with (String " " (tok ++ post)).
    cbn [hasRef].
    change (String " " (tok ++ post)) with (" " ++ tok ++ post).
    now rewrite (matchRef_ref tok post Htok).
  - change (String c pre ++ " " ++ tok ++ post)
      with (String c (pre ++ " " ++ tok ++ post)).
    cbn [hasRef]. destruct (matchRef _); [discriminate | exact IH].
Qed.

(** A reference to a sibling file of the repository. *)
Lemma formatMessage_other_file_witness :
  IsRef "[2]"
  /\ matchingExtra [Cases.inLibrary; Cases.inSibling] "[2]" = Some Cases.inSibling
  /\ path Cases.inSibling <> path (Sample.blame "" None)
  /\ formatMessage (platform := Sample.platform)
       (withDescr (Sample.blame "" None) ("Cannot call f" ++ " " ++ "[2]" ++ "."))
       (map Some [Cases.inLibrary; Cases.inSibling]) "/repo" (Some "0.98.0") 2
     = Return "Cannot call f (see ./src/b.js:14).".
Proof.
  assert (IsRef "[2]") as Href by (exists "2"; repeat split; discriminate).
  assert (path Cases.inSibling <> path (Sample.blame "" None)) as Hp
    by discriminate.
  split; [exact Href |]. split; [reflexivity |]. split; [exact Hp |].
  destruct (formatMessage_other_file (platform := Sample.platform)
              (Sample.blame "" None) [Cases.inLibrary; Cases.inSibling]
              "/repo" (Some "0.98.0") 2 "Cannot call f" "[2]" "."
              Cases.inSibling Href eq_refl Hp)
    as (a & b & Ha & Hb & Hab).
  assert (a = "Cannot call f") as -> by (vm_compute in Ha; congruence).
  assert (b = ".") as -> by (vm_compute in Hb; congruence).
  exact Hab.
Defined.

(** The same extra, seen from the root of the repository. *)
Lemma formatSeePath_relative_witness :
  isLibFile (loc Cases.inSibling) = false
  /\ path Cases.inSibling = "/repo" ++ "/src/b.js"
  /\ formatSeePath (platform := Sample.platform) Cases.inSibling "/repo"
       (Some "0.98.0")
     = "./src/b.js:14".
Proof.
  split; [reflexivity |]. split; [reflexivity |].
  exact (proj1 (formatSeePath_relative (platform := Sample.platform)
                  Cases.inSibling "/repo" (Some "0.98.0") eq_refl)
               "/src/b.js" eq_refl).
Defined.

(** The order of the records of the report of three diagnostics. *)
Lemma collect_order_witness :
  errors (Sample.report Sample.threeErrors) = Some Sample.threeErrors
  /\ Forall WellFormed Sample.threeErrors
  /\ exists keep outs,
       (forall e, In e Sample.threeErrors ->
                  keepError (platform := Sample.platform) "/repo"
                    (Sample.resolve "/repo" "src/a.js") e
                  = Return (keep e))
       /\ collectJson (platform := Sample.platform)
            (Some (JsonValue (Sample.report Sample.threeErrors)))
            "/repo" "src/a.js" Sample.offset23
          = Return (CollectOutput outs)
       /\ Forall2 (fun e o =>
                     normalizeError (platform := Sample.platform)
                       (Sample.report Sample.threeErrors) "/repo" Sample.offset23 e
                     = Return o)
                  (filter keep Sample.threeErrors) outs
       /\ (length outs <= length Sample.threeErrors)%nat.
Proof.
  split; [reflexivity |]. split; [well_formed |].
  apply (collect_order (platform := Sample.platform)
           (Sample.report Sample.threeErrors) Sample.threeErrors
           "/repo" "src/a.js" Sample.offset23);
    [reflexivity | well_formed].
Defined.

(** The fields of the records of the same report. *)
Lemma collect_records_witness :
  errors (Sample.report Sample.threeErrors) = Some Sample.threeErrors
  /\ Forall WellFormed Sample.threeErrors
  /\ exists kept outs,
       collectJson (platform := Sample.platform)
         (Some (JsonValue (Sample.report Sample.threeErrors)))
         "/repo" "src/a.js" Sample.offset23
       = Return (CollectOutput outs)
       /\ (forall e, In e kept
                     <-> In e Sample.threeErrors
                         /\ Kept (platform := Sample.platform) "/repo" "src/a.js" e)
       /\ Forall2 (fun e o => forall m rest,
                     message e = m :: rest ->
                     out_path o = Some (path m)
                     /\ out_start o = Some (pos_line (loc_start (out_loc o)))
                     /\ out_end o = Some (pos_line (loc_end (out_loc o)))
                     /\ out_level o <> ""
                     /\ (forall s, level e = Some s -> s <> "" -> out_level o = s)
                     /\ (level e = None \/ level e = Some "" -> out_level o = "error")
                     /\ (out_type o = Some "missing-annotation"
                         \/ out_type o = Some "default"))
                  kept outs.
Proof.
  split; [reflexivity |]. split; [well_formed |].
  apply (collect_records (platform := Sample.platform)
           (Sample.report Sample.threeErrors) Sample.threeErrors
           "/repo" "src/a.js" Sample.offset23);
    [reflexivity | well_formed].
Defined.

(** A description with a reference and no extras. *)
Lemma collect_message_verbatim_witness :
  errors (Sample.report [Cases.bareReference]) = Some [Cases.bareReference]
  /\ Forall WellFormed [Cases.bareReference]
  /\ exists kept outs,
       collectJson (platform := Sample.platform)
         (Some (JsonValue (Sample.report [Cases.bareReference])))
         "/repo" "src/a.js" Sample.offset5
       = Return (CollectOutput outs)
       /\ (forall e, In e kept
                     <-> In e [Cases.bareReference]
                         /\ Kept (platform := Sample.platform) "/repo" "src/a.js" e)
       /\ Forall2 (fun e o => forall m rest,
                     message e = m :: rest ->
                     extra e = None \/ extra e = Some [] \/ RefFree (descr m) ->
                     out_message o = descr m)
                  kept outs.
Proof.
  split; [reflexivity |]. split; [well_formed |].
  apply (collect_message_verbatim (platform := Sample.platform)
           (Sample.report [Cases.bareReference]) [Cases.bareReference]
           "/repo" "src/a.js" Sample.offset5);
    [reflexivity | well_formed].
Defined.

(** The report of three diagnostics without offset. *)
Lemma collect_zero_offset_witness :
  errors (Sample.report Sample.threeErrors) = Some Sample.threeErrors
  /\ Forall WellFormed Sample.threeErrors
  /\ exists kept outs,
       collectJson (platform := Sample.platform)
         (Some (JsonValue (Sample.report Sample.threeErrors)))
         "/repo" "src/a.js" {| off_line := 0; off_column := 0 |}
       = Return (CollectOutput outs)
       /\ (forall e, In e kept
                     <-> In e Sample.threeErrors
                         /\ Kept (platform := Sample.platform) "/repo" "src/a.js" e)
       /\ Forall2 (fun e o => forall m rest l,
                     message e = m :: rest -> loc m = Some l ->
                     out_loc o
                     = {| loc_start := {| pos_line := line (start l);
                                          pos_column := column (start l);
                                          pos_offset := Some (offset (start l)) |};
                          loc_end := {| pos_line := line (end_ l);
                                        pos_column := column (end_ l);
                                        pos_offset := Some (offset (end_ l)) |} |}
                     /\ out_start o = Some (line (start l))
                     /\ out_end o = Some (line (end_ l)))
                  kept outs.
Proof.
  split; [reflexivity |]. split; [well_formed |].
  apply (collect_zero_offset (platform := Sample.platform)
           (Sample.report Sample.threeErrors) Sample.threeErrors
           "/repo" "src/a.js");
    [reflexivity | well_formed].
Defined.

(** A report with a diagnostic that has neither messages nor operation. *)
Lemma collect_without_messages_witness :
  message Cases.noMessages = []
  /\ ~ (exists op l, operation Cases.noMessages = Some op /\ loc op = Some l
                     /\ (source l = None \/ source l = Some ""))
  /\ In Cases.noMessages [Sample.missingAnnotation; Cases.noMessages]
  /\ collectJson (platform := Sample.platform)
       (Some (JsonValue (Sample.report [Sample.missingAnnotation; Cases.noMessages])))
       "/repo" "src/a.js" Sample.offset5
     = Throw.
Proof.
  assert (~ (exists op l, operation Cases.noMessages = Some op /\ loc op = Some l
                          /\ (source l = None \/ source l = Some ""))) as Hno.
  { intros (op & l & Hop & _). discriminate. }
  assert (In Cases.noMessages [Sample.missingAnnotation; Cases.noMessages]) as Hin
    by (right; now left).
  split; [reflexivity |]. split; [exact Hno |]. split; [exact Hin |].
  exact (proj2 (collect_without_messages (platform := Sample.platform)
                  (Sample.report [Sample.missingAnnotation; Cases.noMessages])
                  [Sample.missingAnnotation; Cases.noMessages]
                  "/repo" "src/a.js" Sample.offset5 Cases.noMessages eq_refl)
               Hno eq_refl Hin).
Defined.

(** An extra without message behind the one extra there is: a reference to it. *)
Lemma formatMessage_hole_witness :
  IsRef "[2]"
  /\ RefFree "Cannot call f"
  /\ matchingExtra [Sample.note "/repo/src/a.js" "[1]" 1] "[2]" = None
  /\ formatMessage (platform := Sample.platform)
       (withDescr (Sample.blame "" None) ("Cannot call f" ++ " " ++ "[2]" ++ ""))
       (map Some [Sample.note "/repo/src/a.js" "[1]" 1] ++ None :: [])
       "/repo" (Some "0.98.0") 2
     = Throw.
Proof.
  assert (IsRef "[2]") as Href by (exists "2"; repeat split; discriminate).
  assert (RefFree "Cannot call f") as Hfree by (apply hasRef_RefFree; reflexivity).
  split; [exact Href |]. split; [exact Hfree |]. split; [reflexivity |].
  exact (proj1 (formatMessage_hole (platform := Sample.platform)
                  (Sample.blame "" None) [Sample.note "/repo/src/a.js" "[1]" 1] []
                  "/repo" (Some "0.98.0") 2 "Cannot call f" "[2]" "" Href Hfree)
               eq_refl).
Defined.

(** Two calls that do not ask for the stop on exit. *)
Lemma no_stop_requested_witness :
  Forall (fun i => inv_stopOnExit i = false)
    [ CallCoverage "{expressions}" "/repo" false "src/a.js";
      CallCollect "{errors:[]}" "/repo" false "src/b.js" Sample.offset5 ]
  /\ didExecute
       (runAll (platform := Sample.platform)
          [ CallCoverage "{expressions}" "/repo" false "src/a.js";
            CallCollect "{errors:[]}" "/repo" false "src/b.js" Sample.offset5 ]
          initialState)
     = false
  /\ exitListeners
       (runAll (platform := Sample.platform)
          [ CallCoverage "{expressions}" "/repo" false "src/a.js";
            CallCollect "{errors:[]}" "/repo" false "src/b.js" Sample.offset5 ]
          initialState)
     = []
  /\ spawned
       (processExit (platform := Sample.platform)
          (runAll (platform := Sample.platform)
             [ CallCoverage "{expressions}" "/repo" false "src/a.js";
               CallCollect "{errors:[]}" "/repo" false "src/b.js" Sample.offset5 ]
             initialState))
     = spawned
         (runAll (platform := Sample.platform)
            [ CallCoverage "{expressions}" "/repo" false "src/a.js";
              CallCollect "{errors:[]}" "/repo" false "src/b.js" Sample.offset5 ]
            initialState).
Proof.
  assert (Forall (fun i => inv_stopOnExit i = false)
            [ CallCoverage "{expressions}" "/repo" false "src/a.js";
              CallCollect "{errors:[]}" "/repo" false "src/b.js" Sample.offset5 ])
    as Hno by (repeat constructor).
  split; [exact Hno |].
  exact (no_stop_requested (platform := Sample.platform) _ Hno).
Defined.

(** FLOW_BIN is set and flow-bin is not installed. *)
Lemma loadModule_bin_witness :
  env_FLOW_BIN (Platform := Cases.overridden) = Some "/opt/flow/flow"
  /\ "/opt/flow/flow" <> ""
  /\ loadModule (platform := Cases.overridden) None = Loaded None
  /\ getFlowBin (platform := Cases.overridden) = Some "/opt/flow/flow".
Proof.
  assert ("/opt/flow/flow" <> "") as Hne by discriminate.
  split; [reflexivity |]. split; [exact Hne |].
  exact (proj1 (loadModule_bin (platform := Cases.overridden) None)
               "/opt/flow/flow" eq_refl Hne).
Defined.

(** The checker prints a report of its exit. *)
Lemma collect_malformed_envelope_witness :
  "{exit}" <> ""
  /\ Sample.spawnSync [] (flowCall (platform := Sample.platform)
                            "check-contents" "{exit}" "/repo" "src/a.js")
     = Some "{exit}"
  /\ Sample.JSON_parse "{exit}" = Some (JsonValue Sample.exited)
  /\ errors Sample.exited = None
  /\ fst (collect (platform := Sample.platform)
            "{exit}" "/repo" false "src/a.js" Sample.offset5 initialState)
     = Return (CollectOutput
         [fatalRecord "Flow returned an error: Out of retries (code: 7)"]).
Proof.
  split; [discriminate |]. split; [reflexivity |]. split; [reflexivity |].
  split; [reflexivity |].
  apply (collect_malformed_envelope (platform := Sample.platform)
           "{exit}" "/repo" false "src/a.js" Sample.offset5 initialState
           "{exit}" Sample.exited);
    first [ reflexivity | discriminate ].
Defined.

(** The checker prints its two counters. *)
Lemma coverage_counts_witness :
  "{expressions}" <> ""
  /\ Sample.spawnSync [] (flowCall (platform := Sample.platform)
                            "coverage" "{expressions}" "/repo" "src/a.js")
     = Some "{expressions}"
  /\ Sample.JSON_parse "{expressions}" = Some (JsonValue Sample.covered)
  /\ fst (coverage (platform := Sample.platform)
            "{expressions}" "/repo" false "src/a.js" initialState)
     = Return (CoverageCounts {| coveredCount := Some 12;
                                 uncoveredCount := Some 3 |}).
Proof.
  assert ("{expressions}" <> "") as Hne by discriminate.
  split; [exact Hne |]. split; [reflexivity |]. split; [reflexivity |].
  exact (proj2 (coverage_counts (platform := Sample.platform)
                  "{expressions}" "/repo" false "src/a.js" initialState
                  "{expressions}" Hne eq_refl Hne)
               Sample.covered
               {| covered_count := Some 12; uncovered_count := Some 3 |}
               eq_refl eq_refl).
Defined.
